(** * TrafficPi: a three-lamp traffic signal driven from GPIO switches

    A shallow embedding of [TrafficPi.cpp]: the global variables and the
    function-local statics become one record, every callback becomes a
    function on that record, and the calls into the GPIO library are
    recorded both in their effect (output pin levels, timer slots) and in
    a log of the calls in program order. *)

From Stdlib Require Import ZArith Bool List Lia.
From stdpp Require Import base option list gmap.

Local Open Scope Z_scope.

(** ** Machine integers

    [int] is a 32-bit two's complement integer, kept as a [Z].  The
    bitwise operators [|], [&], [~] and the arithmetic [>>] of a signed
    value agree with [Z.lor], [Z.land], [Z.lnot] and [Z.shiftr] and stay
    in range; [<<] wraps around. *)
Module Int.

Definition width : Z := 32.

(** Wrap-around of a mathematical integer into the range of [int]. *)
Definition wrap32 (z : Z) : Z := (z + 2 ^ 31) mod 2 ^ 32 - 2 ^ 31.

(** [x << c] for a count known to lie in [0, 32). *)
Definition shl (x c : Z) : Z := wrap32 (Z.shiftl x c).

(** Conversion of an [int] argument to a [uint8_t] parameter. *)
Definition to_uint8 (z : Z) : Z := z mod 256.

Section Undefined.

(** C++ gives no meaning to a shift whose count is negative or not below
    the width.  What the target computes there is a parameter. *)
Variable shl_undef : Z -> Z -> Z.

(** [x << c] for a count computed at run time. *)
Definition shl_any (x c : Z) : Z :=
  if (0 <=? c) && (c <? width) then shl x c else shl_undef x c.

End Undefined.

End Int.

(** ** Pin assignment and constants (the [#define]s) *)

Definition slowSpeed : Z := 5000.
Definition mediumSpeed : Z := 2000.
Definition fastSpeed : Z := 1000.

Definition redLight : Z := 2.
Definition amberLight : Z := 3.
Definition greenLight : Z := 4.
Definition Lights : list Z := [redLight; amberLight; greenLight].

Definition redOnBias : Z := 17.
Definition redOffBias : Z := 27.
Definition amberOnBias : Z := 22.
Definition amberOffBias : Z := 10.
Definition greenOnBias : Z := 9.
Definition greenOffBias : Z := 11.
Definition OnBias : list Z := [redOnBias; amberOnBias; greenOnBias].
Definition OffBias : list Z := [redOffBias; amberOffBias; greenOffBias].

Definition modeRand : Z := 0.
Definition modeDownSlow : Z := 5.
Definition modeDownMedium : Z := 6.
Definition modeDownFast : Z := 13.
Definition modeUpSlow : Z := 19.
Definition modeUpMedium : Z := 26.
Definition modeUpFast : Z := 12.
Definition modeFlashSlow : Z := 16.
Definition modeFlashMedium : Z := 20.
Definition modeFlashFast : Z := 21.

(** The source writes the initialiser list of [Modes] without [[] =]; it
    is the array of the ten mode pins in this order. *)
Definition Modes : list Z :=
  [ modeRand;
    modeDownSlow; modeDownMedium; modeDownFast;
    modeUpSlow; modeUpMedium; modeUpFast;
    modeFlashSlow; modeFlashMedium; modeFlashFast ].

(** Positions in the direction function array. *)
Definition rotateDown : Z := 0.
Definition rotateUp : Z := 1.
Definition rotateNone : Z := 2.

(** Modelled from the spec: the macro [INT_BITS] is used by [rightRotate]
    and [leftRotate] and defined nowhere in the source.  The spec calls the
    source's rotation a full-width rotation, so it is the width of [int]. *)
Definition INT_BITS : Z := Int.width.

(** ** Bit rotation *)

(** [rightRotate]: [(n >> d) | (n << (INT_BITS - d))] with [d = 1]. *)
Definition rightRotate (n : Z) : Z :=
  let d := 1 in
  Z.lor (Z.shiftr n d) (Int.shl n (INT_BITS - d)).

(** [leftRotate]: [(n << d) | (n >> (INT_BITS - d))] with [d = 1]. *)
Definition leftRotate (n : Z) : Z :=
  let d := 1 in
  Z.lor (Int.shl n d) (Z.shiftr n (INT_BITS - d)).

(** ** Program state and the GPIO library *)

(** The three functions a timer can be bound to (the targets of the
    [DirectionFunction] pointers). *)
Inductive DirectionFunction : Set :=
| FnRotateDown
| FnRotateUp
| FnRotateNone.

#[global] Instance DirectionFunction_eq_dec : EqDecision DirectionFunction.
Proof. solve_decision. Defined.

(** Calls into the GPIO library that change the outside world. *)
Inductive GpioCall : Set :=
| CallWrite (pin level : Z)
| CallSetTimerFunc (timer millis : Z) (f : option DirectionFunction).

Record State : Type := mkState {
  BIAS_ON_MASK : Z;
  BIAS_OFF_MASK : Z;
  Sequence_Stage : Z;
  (** static of [RotateNone] *)
  flash_step : Z;
  (** statics of [updateTimerMode] *)
  _speed : Z;
  _rotation : Z;
  (** timer slots of the GPIO library: interval and callback *)
  timers : gmap Z (Z * DirectionFunction);
  (** last level written to each output pin *)
  outputs : gmap Z Z;
  (** every call made so far, oldest first *)
  calls : list GpioCall
}.

(** The values the globals and statics are initialised with. *)
Definition initial : State :=
  {| BIAS_ON_MASK := 0; BIAS_OFF_MASK := 7; Sequence_Stage := 4;
     flash_step := 7; _speed := mediumSpeed; _rotation := rotateDown;
     timers := ∅; outputs := ∅; calls := [] |}.

Definition set_BIAS_ON_MASK (v : Z) (st : State) : State :=
  mkState v (BIAS_OFF_MASK st) (Sequence_Stage st) (flash_step st)
          (_speed st) (_rotation st) (timers st) (outputs st) (calls st).

Definition set_BIAS_OFF_MASK (v : Z) (st : State) : State :=
  mkState (BIAS_ON_MASK st) v (Sequence_Stage st) (flash_step st)
          (_speed st) (_rotation st) (timers st) (outputs st) (calls st).

Definition set_Sequence_Stage (v : Z) (st : State) : State :=
  mkState (BIAS_ON_MASK st) (BIAS_OFF_MASK st) v (flash_step st)
          (_speed st) (_rotation st) (timers st) (outputs st) (calls st).

Definition set_flash_step (v : Z) (st : State) : State :=
  mkState (BIAS_ON_MASK st) (BIAS_OFF_MASK st) (Sequence_Stage st) v
          (_speed st) (_rotation st) (timers st) (outputs st) (calls st).

Definition set_mode (speed rotation : Z) (st : State) : State :=
  mkState (BIAS_ON_MASK st) (BIAS_OFF_MASK st) (Sequence_Stage st)
          (flash_step st) speed rotation (timers st) (outputs st) (calls st).

(** [gpioRead]: the level of an input pin, 0 or 1. *)
Definition gpioRead (levels : Z -> bool) (pin : Z) : Z := Z.b2z (levels pin).

(** [gpioWrite]: drive an output pin. *)
Definition gpioWrite (pin level : Z) (st : State) : State :=
  mkState (BIAS_ON_MASK st) (BIAS_OFF_MASK st) (Sequence_Stage st)
          (flash_step st) (_speed st) (_rotation st) (timers st)
          (<[pin := level]> (outputs st))
          (calls st ++ [CallWrite pin level]).

(** [gpioSetTimerFunc]: with a function, (re)start the timer; with NULL,
    cancel it (source lines 100 to 105). *)
Definition gpioSetTimerFunc (timer millis : Z) (f : option DirectionFunction)
    (st : State) : State :=
  mkState (BIAS_ON_MASK st) (BIAS_OFF_MASK st) (Sequence_Stage st)
          (flash_step st) (_speed st) (_rotation st)
          (match f with
           | Some g => <[timer := (millis, g)]> (timers st)
           | None => delete timer (timers st)
           end)
          (outputs st)
          (calls st ++ [CallSetTimerFunc timer millis f]).

(** ** Light driver *)

(** [updateLights]: the request is masked to its last three bits, then
    red, amber and green are written in this order. *)
Definition updateLights (_outputRequest : Z) (st : State) : State :=
  let _outputRequest := Z.land _outputRequest 7 in
  let st := gpioWrite redLight (Z.shiftr (Z.land _outputRequest 4) 2) st in
  let st := gpioWrite amberLight (Z.shiftr (Z.land _outputRequest 2) 1) st in
  gpioWrite greenLight (Z.land _outputRequest 1) st.

(** ** Sequence steps *)

(** Modelled from the spec: the variable [Sequence_Step], which
    [RotateDown] and [RotateUp] read, is declared nowhere in the source.
    The spec's step reads and writes the one sequence state, and the
    source's comment on both functions names [Sequence_Stage] as the
    variable that keeps the last position, so [Sequence_Step] stands for
    [Sequence_Stage]. *)
Definition Sequence_Step (st : State) : Z := Sequence_Stage st.

Definition RotateDown (st : State) : State :=
  let st := set_Sequence_Stage (rightRotate (Sequence_Step st)) st in
  let output := Sequence_Step st in
  let output := Z.lor output (BIAS_ON_MASK st) in
  let output := Z.land output (BIAS_OFF_MASK st) in
  updateLights (Int.to_uint8 output) st.

Definition RotateUp (st : State) : State :=
  let st := set_Sequence_Stage (leftRotate (Sequence_Step st)) st in
  let output := Sequence_Step st in
  let output := Z.lor output (BIAS_ON_MASK st) in
  let output := Z.land output (BIAS_OFF_MASK st) in
  updateLights (Int.to_uint8 output) st.

(** [RotateNone] keeps its own static [flash_step] and complements it. *)
Definition RotateNone (st : State) : State :=
  let st := set_flash_step (Z.lnot (flash_step st)) st in
  let output := flash_step st in
  let output := Z.lor output (BIAS_ON_MASK st) in
  let output := Z.land output (BIAS_OFF_MASK st) in
  updateLights (Int.to_uint8 output) st.

(** Calling through a [DirectionFunction] pointer. *)
Definition call (f : DirectionFunction) : State -> State :=
  match f with
  | FnRotateDown => RotateDown
  | FnRotateUp => RotateUp
  | FnRotateNone => RotateNone
  end.

(** One expiry of the timer in slot 0, the only slot the program uses
    (see [reachable_invariant]). *)
Definition tick (st : State) : State :=
  match timers st !! 0 with
  | Some (_, f) => call f st
  | None => st
  end.

(** ** Bias switches *)

Section Bias.

Variable shl_undef : Z -> Z -> Z.
Variable levels : Z -> bool.

Notation "x << c" := (Int.shl_any shl_undef x c)
  (at level 40, left associativity, only parsing).

(** [updateOnBias]: on level 0 or 1 the mask is recomputed from the three
    ON switches; every other level (2, no change) does nothing. *)
Definition updateOnBias (_pin _level _tick : Z) (st : State) : State :=
  if (_level =? 0) || (_level =? 1) then
    set_BIAS_ON_MASK
      (gpioRead levels redOnBias << gpioRead levels amberOnBias
         << gpioRead levels greenOnBias) st
  else st.

(** [updateOffBias]: the same with every read complemented; [~] binds
    tighter than [<<]. *)
Definition updateOffBias (_pin _level _tick : Z) (st : State) : State :=
  if (_level =? 0) || (_level =? 1) then
    set_BIAS_OFF_MASK
      (Z.lnot (gpioRead levels redOffBias)
         << Z.lnot (gpioRead levels amberOffBias)
         << Z.lnot (gpioRead levels greenOffBias)) st
  else st.

End Bias.

(** ** Mode dial *)

Definition _directionFunction : list DirectionFunction :=
  [FnRotateDown; FnRotateUp; FnRotateNone].

(** The [switch (_pin)] of [updateTimerMode].  [default] and [modeRand]
    leave both statics as they are. *)
Definition select_mode (_pin : Z) (st : State) : State :=
  if _pin =? modeRand then st
  else if _pin =? modeDownSlow then set_mode slowSpeed rotateDown st
  else if _pin =? modeDownMedium then set_mode mediumSpeed rotateDown st
  else if _pin =? modeDownFast then set_mode fastSpeed rotateDown st
  else if _pin =? modeUpSlow then set_mode slowSpeed rotateUp st
  else if _pin =? modeUpMedium then set_mode mediumSpeed rotateUp st
  else if _pin =? modeUpFast then set_mode fastSpeed rotateUp st
  else if _pin =? modeFlashSlow then set_mode slowSpeed rotateNone st
  else if _pin =? modeFlashMedium then set_mode mediumSpeed rotateNone st
  else if _pin =? modeFlashFast then set_mode fastSpeed rotateNone st
  else st.

(** [updateTimerMode].  The result is [None] when [_rotation] indexes
    outside the array of direction functions. *)
Definition updateTimerMode (_pin _level _tick : Z) (st : State)
    : option State :=
  let st := gpioSetTimerFunc 0 10 None st in
  if negb (_level =? 1) then Some st
  else
    let st := select_mode _pin st in
    if _rotation st <? 0 then None
    else
      match _directionFunction !! Z.to_nat (_rotation st) with
      | Some f => Some (gpioSetTimerFunc 0 (_speed st) (Some f) st)
      | None => None
      end.

(** ** Start-up scan

    The last loop of [setup] (source lines 313 to 322): the mode pins are
    read in the order of [Modes]; the first one that reads high gets one
    call of [updateTimerMode] with level 1 and tick 1234, and the loop
    ends.  The loops before it, which configure the pins and register the
    callbacks, are not modelled. *)
Section Setup.

Variable levels : Z -> bool.

Fixpoint scan_modes (ms : list Z) (st : State) : option State :=
  match ms with
  | [] => Some st
  | i :: rest =>
      if gpioRead levels i =? 0 then scan_modes rest st
      else updateTimerMode i 1 1234 st
  end.

Definition setup (st : State) : option State := scan_modes Modes st.

End Setup.

(** ** Vocabulary of the statements *)

(** The three writes of a request, as the levels of its bits 2, 1, 0. *)
Definition lamp_writes (r : Z) : list GpioCall :=
  [ CallWrite redLight (Z.b2z (Z.testbit r 2));
    CallWrite amberLight (Z.b2z (Z.testbit r 1));
    CallWrite greenLight (Z.b2z (Z.testbit r 0)) ].

(** Pin of the lamp that bit [i] of a pattern stands for. *)
Definition lamp_pin (i : Z) : Z :=
  if i =? 2 then redLight else if i =? 1 then amberLight else greenLight.

(** The next pattern a step computes, before the masks are applied. *)
Definition candidate (f : DirectionFunction) (st : State) : Z :=
  match f with
  | FnRotateDown => rightRotate (Sequence_Stage st)
  | FnRotateUp => leftRotate (Sequence_Stage st)
  | FnRotateNone => Z.lnot (flash_step st)
  end.

(** The state after a step has stored its next pattern. *)
Definition advance (f : DirectionFunction) (st : State) : State :=
  match f with
  | FnRotateDown | FnRotateUp => set_Sequence_Stage (candidate f st) st
  | FnRotateNone => set_flash_step (candidate f st) st
  end.

(** Number of lamps a pattern lights: the bits set within the 3-bit
    field. *)
Definition lamps_lit (p : Z) : Z :=
  Z.b2z (Z.testbit p 2) + Z.b2z (Z.testbit p 1) + Z.b2z (Z.testbit p 0).

(** The nine speed and direction modes of the header comment (source
    lines 24 to 34): pin, interval in milliseconds, step function. *)
Definition mode_table : list (Z * Z * DirectionFunction) :=
  [ (modeDownSlow, slowSpeed, FnRotateDown);
    (modeDownMedium, mediumSpeed, FnRotateDown);
    (modeDownFast, fastSpeed, FnRotateDown);
    (modeUpSlow, slowSpeed, FnRotateUp);
    (modeUpMedium, mediumSpeed, FnRotateUp);
    (modeUpFast, fastSpeed, FnRotateUp);
    (modeFlashSlow, slowSpeed, FnRotateNone);
    (modeFlashMedium, mediumSpeed, FnRotateNone);
    (modeFlashFast, fastSpeed, FnRotateNone) ].

(** Input levels with exactly the pins of [high] reading 1. *)
Definition pins_high (high : list Z) : Z -> bool :=
  fun pin => bool_decide (pin ∈ high).

(** Red is forced on and forced off at once, and the next downward step
    from [0b1000] is red. *)
Definition red_forced_both_ways : State :=
  mkState 4 3 8 7 mediumSpeed rotateDown ∅ ∅ [].

(** Two mode switches read high: slow upward and medium downward. *)
Definition two_modes_high : Z -> bool :=
  pins_high [modeUpSlow; modeDownMedium].

(** No timer slot other than 0 is in use. *)
Definition timer0_only (st : State) : Prop :=
  forall t : Z, t <> 0 -> timers st !! t = None.

(** [_rotation] indexes inside the array of direction functions. *)
Definition rotation_ok (st : State) : Prop := 0 <= _rotation st < 3.

(** ** Runs of the program

    After [setup] the program only reacts: to an alert of one of the
    three kinds of switches, delivered with the pin levels of that moment,
    or to the expiry of the timer. *)
Inductive Event : Type :=
| OnBiasAlert (levels : Z -> bool) (pin level tick : Z)
| OffBiasAlert (levels : Z -> bool) (pin level tick : Z)
| ModeAlert (pin level tick : Z)
| TimerExpiry.

Section Runs.

Variable shl_undef : Z -> Z -> Z.

Definition handle (e : Event) (st : State) : option State :=
  match e with
  | OnBiasAlert levels pin level t =>
      Some (updateOnBias shl_undef levels pin level t st)
  | OffBiasAlert levels pin level t =>
      Some (updateOffBias shl_undef levels pin level t st)
  | ModeAlert pin level t => updateTimerMode pin level t st
  | TimerExpiry => Some (tick st)
  end.

Inductive reachable : State -> Prop :=
| reach_setup (levels : Z -> bool) (st : State) :
    setup levels initial = Some st -> reachable st
| reach_event (e : Event) (st st' : State) :
    reachable st -> handle e st = Some st' -> reachable st'.

End Runs.

(** ** Vocabulary of the further properties *)

(** The values an [int] holds. *)
Definition int_range (z : Z) : Prop := - 2 ^ 31 <= z < 2 ^ 31.

(** The pins that have an entry in the mode table. *)
Definition table_pins : list Z := map (fun e => fst (fst e)) mode_table.

(** [_speed] is one of the three intervals. *)
Definition speed_ok (st : State) : Prop :=
  In (_speed st) [slowSpeed; mediumSpeed; fastSpeed].

(** The timer in slot 0, when it runs, is the one the statics of
    [updateTimerMode] describe; no other slot is in use. *)
Definition timer_agrees (st : State) : Prop :=
  timers st = ∅ \/
  exists f : DirectionFunction,
    _directionFunction !! Z.to_nat (_rotation st) = Some f /\
    timers st = {[0 := (_speed st, f)]}.

(** A call the GPIO library accepts from this program: a write of level 0
    or 1 to one of the three lights; a cancel of timer 0; a start of timer
    0 with one of the three intervals. *)
Definition call_ok (c : GpioCall) : Prop :=
  match c with
  | CallWrite pin level => In pin Lights /\ (level = 0 \/ level = 1)
  | CallSetTimerFunc timer millis None => timer = 0 /\ millis = 10
  | CallSetTimerFunc timer millis (Some _) =>
      timer = 0 /\ In millis [slowSpeed; mediumSpeed; fastSpeed]
  end.

(** What holds of a state all along a run. *)
Definition run_invariant (st : State) : Prop :=
  timer_agrees st /\ rotation_ok st /\ speed_ok st /\
  Forall call_ok (calls st).

(** No switch reads high. *)
Definition all_low : Z -> bool := pins_high [].

(** A target on which an undefined shift gives 0. *)
Definition zero_shift : Z -> Z -> Z := fun _ _ => 0.

(** The state [setup] reaches from the initial one when the slow downward
    switch alone reads high. *)
Definition started : State :=
  gpioSetTimerFunc 0 slowSpeed (Some FnRotateDown)
    (select_mode modeDownSlow (gpioSetTimerFunc 0 10 None initial)).

(** A call that is not a write to a pin. *)
Definition timer_call (c : GpioCall) : Prop :=
  match c with
  | CallWrite _ _ => False
  | CallSetTimerFunc _ _ _ => True
  end.

(** * Properties *)

(** ** Bits of a request *)

Lemma land_pow2 (r k : Z) :
  0 <= k -> Z.land r (2 ^ k) = if Z.testbit r k then 2 ^ k else 0.
Proof.
  intros Hk. apply Z.bits_inj'. intros n Hn.
  rewrite Z.land_spec, Z.pow2_bits_eqb by assumption.
  destruct (Z.eqb_spec k n) as [->|Hne].
  - destruct (Z.testbit r n); simpl.
    + rewrite Z.pow2_bits_eqb, Z.eqb_refl by assumption. reflexivity.
    + rewrite Z.bits_0. reflexivity.
  - rewrite andb_false_r. destruct (Z.testbit r k).
    + rewrite Z.pow2_bits_eqb by assumption.
      symmetry. apply Z.eqb_neq. assumption.
    + rewrite Z.bits_0. reflexivity.
Qed.

(** Masking with [0b111] first does not change what a later mask with a
    single one of the three low bits sees. *)
Lemma land7_land (r m : Z) : Z.land 7 m = m -> Z.land (Z.land r 7) m = Z.land r m.
Proof. intros Hm. rewrite <- Z.land_assoc, Hm. reflexivity. Qed.

Lemma red_level (r : Z) :
  Z.shiftr (Z.land (Z.land r 7) 4) 2 = Z.b2z (Z.testbit r 2).
Proof.
  rewrite land7_land by reflexivity.
  change 4 with (2 ^ 2). rewrite land_pow2 by lia.
  destruct (Z.testbit r 2); reflexivity.
Qed.

Lemma amber_level (r : Z) :
  Z.shiftr (Z.land (Z.land r 7) 2) 1 = Z.b2z (Z.testbit r 1).
Proof.
  rewrite land7_land by reflexivity.
  change 2 with (2 ^ 1) at 1. rewrite land_pow2 by lia.
  destruct (Z.testbit r 1); reflexivity.
Qed.

Lemma green_level (r : Z) :
  Z.land (Z.land r 7) 1 = Z.b2z (Z.testbit r 0).
Proof.
  rewrite land7_land by reflexivity.
  change 1 with (2 ^ 0) at 1. rewrite land_pow2 by lia.
  destruct (Z.testbit r 0); reflexivity.
Qed.

Lemma to_uint8_testbit (z i : Z) :
  0 <= i < 8 -> Z.testbit (Int.to_uint8 z) i = Z.testbit z i.
Proof.
  intros Hi. unfold Int.to_uint8. change 256 with (2 ^ 8).
  apply Z.mod_pow2_bits_low. lia.
Qed.

(** ** The light driver *)

Lemma updateLights_unfold (r : Z) (st : State) :
  updateLights r st =
  mkState (BIAS_ON_MASK st) (BIAS_OFF_MASK st) (Sequence_Stage st)
    (flash_step st) (_speed st) (_rotation st) (timers st)
    (<[greenLight := Z.b2z (Z.testbit r 0)]>
       (<[amberLight := Z.b2z (Z.testbit r 1)]>
          (<[redLight := Z.b2z (Z.testbit r 2)]> (outputs st))))
    (calls st ++ lamp_writes r).
Proof.
  unfold updateLights, gpioWrite, lamp_writes; cbn [BIAS_ON_MASK BIAS_OFF_MASK
    Sequence_Stage flash_step _speed _rotation timers outputs calls].
  rewrite red_level, amber_level, green_level.
  rewrite <- !app_assoc. reflexivity.
Qed.

Lemma updateLights_output (r : Z) (st : State) (i : Z) :
  0 <= i < 3 ->
  outputs (updateLights r st) !! lamp_pin i = Some (Z.b2z (Z.testbit r i)).
Proof.
  intros Hi. rewrite updateLights_unfold. cbn [outputs].
  assert (i = 0 \/ i = 1 \/ i = 2) as [-> | [-> | ->]] by lia;
    reflexivity || (cbn; unfold greenLight, amberLight, redLight;
                    simplify_map_eq; reflexivity).
Qed.

Lemma lamp_writes_low3 (r r' : Z) :
  (forall i, 0 <= i < 3 -> Z.testbit r i = Z.testbit r' i) ->
  lamp_writes r = lamp_writes r'.
Proof.
  intros H. unfold lamp_writes.
  rewrite (H 2), (H 1), (H 0) by lia. reflexivity.
Qed.

Lemma land7_testbit (r i : Z) :
  0 <= i < 3 -> Z.testbit (Z.land r 7) i = Z.testbit r i.
Proof.
  intros Hi. rewrite Z.land_spec.
  assert (i = 0 \/ i = 1 \/ i = 2) as [-> | [-> | ->]] by lia;
    apply andb_true_r.
Qed.

(** C10: the light driver looks at the low three bits of its request
    only.  For every 8-bit request [r], [updateLights r] is the same state
    transformer as [updateLights (r & 0b111)], and what it writes is bit 2
    of [r] to the red pin, bit 1 to the amber pin and bit 0 to the green
    pin, in this order. *)
Theorem updateLights_low3 (r : Z) (st : State) :
  0 <= r < 256 ->
  updateLights r st = updateLights (Z.land r 7) st /\
  calls (updateLights r st) =
    calls st ++ [ CallWrite redLight (Z.b2z (Z.testbit r 2));
                  CallWrite amberLight (Z.b2z (Z.testbit r 1));
                  CallWrite greenLight (Z.b2z (Z.testbit r 0)) ].
Proof.
  intros _. split.
  - rewrite !updateLights_unfold.
    rewrite (lamp_writes_low3 (Z.land r 7) r) by apply land7_testbit.
    rewrite !land7_testbit by lia. reflexivity.
  - rewrite updateLights_unfold. reflexivity.
Qed.

Lemma updateLights_low3_witness :
  0 <= 173 < 256 /\
  updateLights 173 initial = updateLights (Z.land 173 7) initial /\
  calls (updateLights 173 initial) =
    calls initial ++ [ CallWrite redLight (Z.b2z (Z.testbit 173 2));
                       CallWrite amberLight (Z.b2z (Z.testbit 173 1));
                       CallWrite greenLight (Z.b2z (Z.testbit 173 0)) ].
Proof. split; [lia | apply (updateLights_low3 173 initial); lia]. Defined.

(** ** Sequence steps and the bias masks *)

Lemma call_unfold (f : DirectionFunction) (st : State) :
  call f st =
  updateLights
    (Int.to_uint8
       (Z.land (Z.lor (candidate f st) (BIAS_ON_MASK st)) (BIAS_OFF_MASK st)))
    (advance f st).
Proof. destruct f; reflexivity. Qed.

Lemma advance_frame (f : DirectionFunction) (st : State) :
  BIAS_ON_MASK (advance f st) = BIAS_ON_MASK st /\
  BIAS_OFF_MASK (advance f st) = BIAS_OFF_MASK st /\
  _speed (advance f st) = _speed st /\
  _rotation (advance f st) = _rotation st /\
  timers (advance f st) = timers st /\
  outputs (advance f st) = outputs st /\
  calls (advance f st) = calls st.
Proof. destruct f; repeat split. Qed.

(** C1: in every step function the pattern sent to the lights is
    [(candidate | BIAS_ON_MASK) & BIAS_OFF_MASK], the ON mask applied
    first and the OFF mask second: the three lamp writes are the bits 2,
    1, 0 of that value, lamp [i] gets
    [(candidate_i || on_i) && off_i], and when bit [i] of the OFF mask is
    clear (lamp forced off) lamp [i] is written 0 even if bit [i] of the
    ON mask is set. *)
Theorem bias_on_then_off (f : DirectionFunction) (st : State) (i : Z) :
  0 <= i < 3 ->
  let out :=
    Z.land (Z.lor (candidate f st) (BIAS_ON_MASK st)) (BIAS_OFF_MASK st) in
  calls (call f st) =
    calls st ++ [ CallWrite redLight (Z.b2z (Z.testbit out 2));
                  CallWrite amberLight (Z.b2z (Z.testbit out 1));
                  CallWrite greenLight (Z.b2z (Z.testbit out 0)) ] /\
  outputs (call f st) !! lamp_pin i =
    Some (Z.b2z ((Z.testbit (candidate f st) i
                  || Z.testbit (BIAS_ON_MASK st) i)
                 && Z.testbit (BIAS_OFF_MASK st) i)) /\
  (Z.testbit (BIAS_ON_MASK st) i = true ->
   Z.testbit (BIAS_OFF_MASK st) i = false ->
   outputs (call f st) !! lamp_pin i = Some 0).
Proof.
  intros Hi out.
  assert (outputs (call f st) !! lamp_pin i = Some (Z.b2z (Z.testbit out i)))
    as Hout.
  { rewrite call_unfold, updateLights_output by assumption.
    rewrite to_uint8_testbit by lia. reflexivity. }
  split; [|split].
  - rewrite call_unfold, updateLights_unfold. cbn [calls].
    destruct (advance_frame f st) as (_ & _ & _ & _ & _ & _ & ->).
    f_equal. apply lamp_writes_low3. intros j Hj.
    apply to_uint8_testbit. lia.
  - rewrite Hout. unfold out. rewrite Z.land_spec, Z.lor_spec. reflexivity.
  - intros _ Hoff. rewrite Hout. unfold out.
    rewrite Z.land_spec, Hoff, andb_false_r. reflexivity.
Qed.

(** Red is forced on and forced off at once, and the step itself would
    light red: red is written 0. *)
Lemma bias_on_then_off_witness :
  candidate FnRotateDown red_forced_both_ways = 4 /\
  Z.testbit (BIAS_ON_MASK red_forced_both_ways) 2 = true /\
  Z.testbit (BIAS_OFF_MASK red_forced_both_ways) 2 = false /\
  outputs (call FnRotateDown red_forced_both_ways) !! lamp_pin 2 = Some 0.
Proof.
  repeat (split; [reflexivity|]).
  apply (bias_on_then_off FnRotateDown red_forced_both_ways 2);
    [lia | reflexivity..].
Defined.

(** ** Rotation *)

Lemma three_bit_cases (p : Z) :
  0 <= p < 8 ->
  p = 0 \/ p = 1 \/ p = 2 \/ p = 3 \/ p = 4 \/ p = 5 \/ p = 6 \/ p = 7.
Proof. lia. Qed.

Ltac each_three_bit H :=
  apply three_bit_cases in H;
  repeat (destruct H as [-> | H]); [..| subst].

(** Turning a 3-bit pattern up only shifts it: bit 2 moves to bit 3 and
    nothing comes back to bit 0. *)
Lemma leftRotate_three_bit (p : Z) : 0 <= p < 8 -> leftRotate p = 2 * p.
Proof. intros H. each_three_bit H; reflexivity. Qed.

(** Turning a 3-bit pattern down moves bit 0 to bit 31, the sign bit. *)
Lemma rightRotate_three_bit (p : Z) :
  0 <= p < 8 ->
  rightRotate p = p / 2 - (if Z.testbit p 0 then 2 ^ 31 else 0).
Proof. intros H. each_three_bit H; reflexivity. Qed.

(** Down after up is the identity on 3-bit patterns. *)
Lemma rightRotate_leftRotate (p : Z) :
  0 <= p < 8 -> rightRotate (leftRotate p) = p.
Proof. intros H. each_three_bit H; reflexivity. Qed.

(** Up after down is the identity on the even 3-bit patterns only. *)
Lemma leftRotate_rightRotate_even (p : Z) :
  0 <= p < 8 -> Z.testbit p 0 = false -> leftRotate (rightRotate p) = p.
Proof. intros H. each_three_bit H; intros Hb; (reflexivity || discriminate Hb). Qed.

Lemma leftRotate_rightRotate_odd (p : Z) :
  0 <= p < 8 -> Z.testbit p 0 = true -> leftRotate (rightRotate p) = -1.
Proof. intros H. each_three_bit H; intros Hb; (reflexivity || discriminate Hb). Qed.

(** C3, evaluated where it fails: with green alone lit, [rightRotate]
    yields the sign bit and no lamp of the 3-bit field; with red alone
    lit, [leftRotate] yields bit 3 and no lamp of the 3-bit field.  The
    other single-lamp patterns do keep one lamp. *)
Theorem rotate_loses_the_lamp :
  lamps_lit 1 = 1 /\ rightRotate 1 = - 2 ^ 31 /\ lamps_lit (rightRotate 1) = 0 /\
  lamps_lit 4 = 1 /\ leftRotate 4 = 8 /\ lamps_lit (leftRotate 4) = 0 /\
  lamps_lit (rightRotate 4) = 1 /\ lamps_lit (rightRotate 2) = 1 /\
  lamps_lit (leftRotate 1) = 1 /\ lamps_lit (leftRotate 2) = 1.
Proof. repeat split. Qed.

(** C4, evaluated where it fails: [rightRotate (leftRotate p) = p] for
    every 3-bit [p], but [leftRotate (rightRotate 1)] is [-1], all bits
    set, because [>>] of the negative intermediate value copies the sign
    bit; within the 3-bit field that is [0b111], not [0b001]. *)
Theorem up_after_down_not_identity :
  rightRotate (leftRotate 1) = 1 /\
  rightRotate 1 = - 2 ^ 31 /\
  leftRotate (rightRotate 1) = -1 /\
  Z.land (leftRotate (rightRotate 1)) 7 = 7.
Proof. repeat split. Qed.

(** C5, evaluated: from red ([0b100]) with the masks at their defaults,
    [RotateDown] writes amber alone ([0b010]); [RotateUp] stores [0b1000]
    and writes all three lamps off ([0b000], not green). *)
Theorem first_step_from_red :
  BIAS_ON_MASK initial = 0 /\ BIAS_OFF_MASK initial = 7 /\
  Sequence_Stage initial = 4 /\
  calls (RotateDown initial) =
    [CallWrite redLight 0; CallWrite amberLight 1; CallWrite greenLight 0] /\
  Sequence_Stage (RotateDown initial) = 2 /\
  calls (RotateUp initial) =
    [CallWrite redLight 0; CallWrite amberLight 0; CallWrite greenLight 0] /\
  Sequence_Stage (RotateUp initial) = 8.
Proof. repeat split. Qed.

(** ** Bias switches *)

Section BiasFacts.

Variable shl_undef : Z -> Z -> Z.
Variable levels : Z -> bool.

(** What [updateOnBias] stores on level 0 or 1: the red read, shifted
    left by the amber read and again by the green read. *)
Lemma updateOnBias_mask (_pin _level _tick : Z) (st : State) :
  _level = 0 \/ _level = 1 ->
  BIAS_ON_MASK (updateOnBias shl_undef levels _pin _level _tick st) =
  Z.shiftl (Z.b2z (levels redOnBias))
           (Z.b2z (levels amberOnBias) + Z.b2z (levels greenOnBias)).
Proof.
  intros [-> | ->]; unfold updateOnBias, gpioRead; cbn;
    destruct (levels redOnBias), (levels amberOnBias), (levels greenOnBias);
    reflexivity.
Qed.

(** What [updateOffBias] stores on level 0 or 1: both shift counts are
    complements of a read, hence negative, and the value is whatever the
    target makes of such a shift. *)
Lemma updateOffBias_mask (_pin _level _tick : Z) (st : State) :
  _level = 0 \/ _level = 1 ->
  BIAS_OFF_MASK (updateOffBias shl_undef levels _pin _level _tick st) =
  shl_undef
    (shl_undef (Z.lnot (Z.b2z (levels redOffBias)))
               (Z.lnot (Z.b2z (levels amberOffBias))))
    (Z.lnot (Z.b2z (levels greenOffBias))).
Proof.
  intros [-> | ->]; unfold updateOffBias, gpioRead; cbn;
    destruct (levels redOffBias), (levels amberOffBias), (levels greenOffBias);
    reflexivity.
Qed.

(** Level 2 (no change) and any other level leave the state alone. *)
Lemma updateOnBias_other_level (_pin _level _tick : Z) (st : State) :
  _level <> 0 -> _level <> 1 ->
  updateOnBias shl_undef levels _pin _level _tick st = st.
Proof.
  intros H0 H1. unfold updateOnBias.
  apply Z.eqb_neq in H0, H1. rewrite H0, H1. reflexivity.
Qed.

Lemma updateOffBias_other_level (_pin _level _tick : Z) (st : State) :
  _level <> 0 -> _level <> 1 ->
  updateOffBias shl_undef levels _pin _level _tick st = st.
Proof.
  intros H0 H1. unfold updateOffBias.
  apply Z.eqb_neq in H0, H1. rewrite H0, H1. reflexivity.
Qed.

Lemma set_BIAS_ON_MASK_same (st : State) :
  set_BIAS_ON_MASK (BIAS_ON_MASK st) st = st.
Proof. destruct st; reflexivity. Qed.

Lemma set_BIAS_OFF_MASK_same (st : State) :
  set_BIAS_OFF_MASK (BIAS_OFF_MASK st) st = st.
Proof. destruct st; reflexivity. Qed.

(** Each bias callback replaces at most its own mask. *)
Lemma updateOnBias_frame (_pin _level _tick : Z) (st : State) :
  let on := updateOnBias shl_undef levels _pin _level _tick st in
  on = set_BIAS_ON_MASK (BIAS_ON_MASK on) st.
Proof.
  cbv zeta. unfold updateOnBias.
  destruct ((_level =? 0) || (_level =? 1)); cbn [BIAS_ON_MASK set_BIAS_ON_MASK];
    rewrite ?set_BIAS_ON_MASK_same; reflexivity.
Qed.

Lemma updateOffBias_frame (_pin _level _tick : Z) (st : State) :
  let off := updateOffBias shl_undef levels _pin _level _tick st in
  off = set_BIAS_OFF_MASK (BIAS_OFF_MASK off) st.
Proof.
  cbv zeta. unfold updateOffBias.
  destruct ((_level =? 0) || (_level =? 1)); cbn [BIAS_OFF_MASK set_BIAS_OFF_MASK];
    rewrite ?set_BIAS_OFF_MASK_same; reflexivity.
Qed.

(** C9: the bias callbacks never write [Sequence_Stage], and each writes
    its own mask only.  For every alert, the state after [updateOnBias]
    is the state before with at most [BIAS_ON_MASK] replaced, so
    [Sequence_Stage] and [BIAS_OFF_MASK] are as before; the state after
    [updateOffBias] is the state before with at most [BIAS_OFF_MASK]
    replaced, so [Sequence_Stage] and [BIAS_ON_MASK] are as before.  This
    holds whatever the undefined shifts of [updateOffBias] evaluate to. *)
Theorem bias_updates_frame (_pin _level _tick : Z) (st : State) :
  let on := updateOnBias shl_undef levels _pin _level _tick st in
  let off := updateOffBias shl_undef levels _pin _level _tick st in
  (on = set_BIAS_ON_MASK (BIAS_ON_MASK on) st /\
   Sequence_Stage on = Sequence_Stage st /\
   BIAS_OFF_MASK on = BIAS_OFF_MASK st) /\
  (off = set_BIAS_OFF_MASK (BIAS_OFF_MASK off) st /\
   Sequence_Stage off = Sequence_Stage st /\
   BIAS_ON_MASK off = BIAS_ON_MASK st).
Proof.
  cbv zeta. split.
  - split; [apply updateOnBias_frame|].
    rewrite (updateOnBias_frame _pin _level _tick st). split; reflexivity.
  - split; [apply updateOffBias_frame|].
    rewrite (updateOffBias_frame _pin _level _tick st). split; reflexivity.
Qed.

End BiasFacts.

(** C6, evaluated where it fails.  Amber's ON switch alone reads 1: the
    mask becomes [0 << 1 << 0 = 0], bit 1 (amber) is clear.  Red's ON
    switch alone reads 1: the mask becomes [1 << 0 << 0 = 1], bit 0
    (green) is set and bit 2 (red) is clear.  Only with all three ON
    switches at 1 is the red bit set, alone.  With no OFF switch at 1,
    [updateOffBias] evaluates [~0 << ~0 << ~0], two shifts by [-1],
    which C++ leaves without a value. *)
Theorem bias_masks_are_shifts_not_bitfields (shl_undef : Z -> Z -> Z) :
  gpioRead (pins_high [amberOnBias]) amberOnBias = 1 /\
  BIAS_ON_MASK
    (updateOnBias shl_undef (pins_high [amberOnBias]) amberOnBias 1 0 initial)
    = 0 /\
  gpioRead (pins_high [redOnBias]) redOnBias = 1 /\
  BIAS_ON_MASK
    (updateOnBias shl_undef (pins_high [redOnBias]) redOnBias 1 0 initial)
    = 1 /\
  BIAS_ON_MASK
    (updateOnBias shl_undef (pins_high [redOnBias; amberOnBias; greenOnBias])
       greenOnBias 1 0 initial)
    = 4 /\
  BIAS_OFF_MASK (updateOffBias shl_undef (pins_high []) redOffBias 0 0 initial)
    = shl_undef (shl_undef (-1) (-1)) (-1).
Proof. repeat split. Qed.

(** ** Mode dial and timer *)

Lemma rearm_single (m : gmap Z (Z * DirectionFunction)) (x : Z * DirectionFunction) :
  (forall t : Z, t <> 0 -> m !! t = None) ->
  <[0 := x]> (delete 0 m) = {[0 := x]}.
Proof.
  intros Hm. apply map_eq. intros t.
  destruct (decide (t = 0)) as [-> | Hne].
  - rewrite lookup_insert_eq, lookup_singleton_eq. reflexivity.
  - rewrite lookup_insert_ne, lookup_delete_ne, lookup_singleton_ne by auto.
    apply Hm, Hne.
Qed.

Lemma cancel_empties (m : gmap Z (Z * DirectionFunction)) :
  (forall t : Z, t <> 0 -> m !! t = None) -> delete 0 m = ∅.
Proof.
  intros Hm. apply map_eq. intros t. rewrite lookup_empty.
  destruct (decide (t = 0)) as [-> | Hne].
  - apply lookup_delete_eq.
  - rewrite lookup_delete_ne by auto. apply Hm, Hne.
Qed.

(** Any level but 1: the timer is cancelled, and that is all. *)
Lemma updateTimerMode_not_rising (_pin _level _tick : Z) (st : State) :
  _level <> 1 ->
  updateTimerMode _pin _level _tick st = Some (gpioSetTimerFunc 0 10 None st).
Proof.
  intros H. unfold updateTimerMode.
  apply Z.eqb_neq in H. rewrite H. reflexivity.
Qed.

Lemma select_mode_frame (_pin : Z) (st : State) :
  select_mode _pin st = set_mode (_speed (select_mode _pin st))
                                 (_rotation (select_mode _pin st)) st.
Proof.
  unfold select_mode.
  repeat (match goal with |- context [if ?b then _ else _] => destruct b end;
          [destruct st; reflexivity|]).
  destruct st; reflexivity.
Qed.

Lemma select_mode_rotation_ok (_pin : Z) (st : State) :
  rotation_ok st -> rotation_ok (select_mode _pin st).
Proof.
  unfold select_mode, rotation_ok. intros H.
  repeat (match goal with |- context [if ?b then _ else _] => destruct b end;
          [assumption
           || (cbn; unfold rotateDown, rotateUp, rotateNone; lia)|]).
  assumption.
Qed.

Lemma select_mode_table (pin speed : Z) (f : DirectionFunction) (st : State) :
  In (pin, speed, f) mode_table ->
  _speed (select_mode pin st) = speed /\
  _directionFunction !! Z.to_nat (_rotation (select_mode pin st)) = Some f /\
  0 <= _rotation (select_mode pin st).
Proof.
  unfold mode_table. cbn [In]. intros H.
  repeat (destruct H as [H | H]; [injection H as <- <- <-; repeat split; cbn;
                                   unfold rotateDown, rotateUp, rotateNone; lia|]).
  destruct H.
Qed.

(** A rising edge with a valid [_rotation]: cancel, select, arm. *)
Lemma updateTimerMode_rising (_pin _tick : Z) (st : State) :
  rotation_ok st ->
  exists f,
    _directionFunction
      !! Z.to_nat (_rotation (select_mode _pin (gpioSetTimerFunc 0 10 None st)))
    = Some f /\
    updateTimerMode _pin 1 _tick st =
    Some (gpioSetTimerFunc 0
            (_speed (select_mode _pin (gpioSetTimerFunc 0 10 None st)))
            (Some f)
            (select_mode _pin (gpioSetTimerFunc 0 10 None st))).
Proof.
  intros Hok. unfold updateTimerMode. cbn [Z.eqb Pos.eqb negb].
  set (st1 := select_mode _pin (gpioSetTimerFunc 0 10 None st)).
  assert (rotation_ok st1) as [Hlo Hhi]
    by (apply select_mode_rotation_ok; exact Hok).
  destruct (Z.ltb_spec (_rotation st1) 0) as [Hneg | _]; [lia|].
  assert (_rotation st1 = 0 \/ _rotation st1 = 1 \/ _rotation st1 = 2)
    as [-> | [-> | ->]] by lia; eexists; split; reflexivity.
Qed.

Lemma select_mode_calls (_pin : Z) (st : State) :
  calls (select_mode _pin st) = calls st /\
  timers (select_mode _pin st) = timers st /\
  Sequence_Stage (select_mode _pin st) = Sequence_Stage st.
Proof. rewrite select_mode_frame. repeat split. Qed.

(** A rising edge on one of the nine table pins. *)
Lemma updateTimerMode_table (pin speed : Z) (f : DirectionFunction)
    (_tick : Z) (st : State) :
  In (pin, speed, f) mode_table ->
  updateTimerMode pin 1 _tick st =
  Some (gpioSetTimerFunc 0 speed (Some f)
          (select_mode pin (gpioSetTimerFunc 0 10 None st))).
Proof.
  intros Hin. unfold updateTimerMode. cbn [Z.eqb Pos.eqb negb].
  destruct (select_mode_table pin speed f (gpioSetTimerFunc 0 10 None st) Hin)
    as (Hs & Hf & Hr).
  destruct (Z.ltb_spec (_rotation (select_mode pin (gpioSetTimerFunc 0 10 None st))) 0);
    [lia|].
  rewrite Hf, Hs. reflexivity.
Qed.

Lemma rearm_effect (pin speed : Z) (f : DirectionFunction) (st : State) :
  let st' := gpioSetTimerFunc 0 speed (Some f)
               (select_mode pin (gpioSetTimerFunc 0 10 None st)) in
  calls st' =
    calls st ++ [CallSetTimerFunc 0 10 None; CallSetTimerFunc 0 speed (Some f)] /\
  timers st' = <[0 := (speed, f)]> (delete 0 (timers st)) /\
  Sequence_Stage st' = Sequence_Stage st.
Proof.
  cbv zeta.
  destruct (select_mode_calls pin (gpioSetTimerFunc 0 10 None st))
    as (Hc & Ht & Hs).
  unfold gpioSetTimerFunc at 1 3 5. cbn [calls timers Sequence_Stage].
  rewrite Hc, Ht, Hs. cbn [gpioSetTimerFunc calls timers Sequence_Stage].
  rewrite <- app_assoc. repeat split.
Qed.

Lemma single_timer_tick (speed : Z) (f : DirectionFunction) (st : State) :
  timers st = {[0 := (speed, f)]} -> tick st = call f st.
Proof.
  intros H. unfold tick. rewrite H, lookup_singleton_eq. reflexivity.
Qed.

Lemma single_timer0_only (speed : Z) (f : DirectionFunction) (st : State) :
  timers st = {[0 := (speed, f)]} -> timer0_only st.
Proof.
  intros H t Ht. rewrite H. apply lookup_singleton_ne. auto.
Qed.

(** One rising edge on a table pin, from a state that uses slot 0 only. *)
Lemma mode_switch_once (pin speed : Z) (f : DirectionFunction)
    (_tick : Z) (st : State) :
  In (pin, speed, f) mode_table ->
  timer0_only st ->
  exists st',
    updateTimerMode pin 1 _tick st = Some st' /\
    calls st' =
      calls st ++ [CallSetTimerFunc 0 10 None; CallSetTimerFunc 0 speed (Some f)] /\
    timers st' = {[0 := (speed, f)]} /\
    tick st' = call f st'.
Proof.
  intros Hin Hm. eexists. split; [apply updateTimerMode_table, Hin|].
  destruct (rearm_effect pin speed f st) as (Hc & Ht & _).
  rewrite (rearm_single _ _ Hm) in Ht.
  split; [exact Hc|]. split; [exact Ht|].
  apply (single_timer_tick speed), Ht.
Qed.

(** C7: a rising edge on any of the nine speed and direction pins first
    cancels timer 0 and then arms it, in this order and with nothing in
    between; afterwards timer 0 is the one and only running timer, its
    interval is the pin's speed and its expiry calls the pin's step
    function.  A second such edge does the same for the second pin: the
    first selection's timer is gone and only the second one runs. *)
Theorem mode_switch_rearms (pin speed : Z) (f : DirectionFunction)
    (_tick : Z) (st : State) :
  In (pin, speed, f) mode_table ->
  timer0_only st ->
  exists st',
    updateTimerMode pin 1 _tick st = Some st' /\
    calls st' =
      calls st ++ [CallSetTimerFunc 0 10 None; CallSetTimerFunc 0 speed (Some f)] /\
    timers st' = {[0 := (speed, f)]} /\
    tick st' = call f st' /\
    forall (pin2 speed2 : Z) (f2 : DirectionFunction) (tick2 : Z),
      In (pin2, speed2, f2) mode_table ->
      exists st'',
        updateTimerMode pin2 1 tick2 st' = Some st'' /\
        calls st'' =
          calls st' ++ [CallSetTimerFunc 0 10 None;
                        CallSetTimerFunc 0 speed2 (Some f2)] /\
        timers st'' = {[0 := (speed2, f2)]} /\
        tick st'' = call f2 st''.
Proof.
  intros Hin Hm.
  destruct (mode_switch_once pin speed f _tick st Hin Hm)
    as (st' & Hrun & Hc & Ht & Hk).
  exists st'. repeat (split; [assumption|]).
  intros pin2 speed2 f2 tick2 Hin2.
  apply mode_switch_once; [exact Hin2|].
  apply (single_timer0_only speed f), Ht.
Qed.

Lemma initial_timer0_only : timer0_only initial.
Proof. intros t _. apply lookup_empty. Qed.

(** From the initial state, the fast upward mode is selected. *)
Lemma mode_switch_rearms_witness :
  exists st',
    updateTimerMode modeUpFast 1 0 initial = Some st' /\
    calls st' =
      calls initial ++ [CallSetTimerFunc 0 10 None;
                        CallSetTimerFunc 0 fastSpeed (Some FnRotateUp)] /\
    timers st' = {[0 := (fastSpeed, FnRotateUp)]} /\
    tick st' = call FnRotateUp st'.
Proof.
  destruct (mode_switch_rearms modeUpFast fastSpeed FnRotateUp 0 initial)
    as (st' & H1 & H2 & H3 & H4 & _).
  - cbn. tauto.
  - exact initial_timer0_only.
  - exists st'. repeat split; assumption.
Defined.

(** What a falling edge or a watchdog alert does on the mode dial: the two
    statics keep their values and no timer is armed, but timer 0 is
    cancelled. *)
Lemma mode_alert_not_rising (_pin _level _tick : Z) (st : State) :
  _level <> 1 ->
  timer0_only st ->
  exists st',
    updateTimerMode _pin _level _tick st = Some st' /\
    _speed st' = _speed st /\ _rotation st' = _rotation st /\
    calls st' = calls st ++ [CallSetTimerFunc 0 10 None] /\
    timers st' = ∅ /\
    tick st' = st'.
Proof.
  intros Hl Hm. eexists. split; [apply updateTimerMode_not_rising, Hl|].
  assert (timers (gpioSetTimerFunc 0 10 None st) = ∅) as Ht
    by (apply cancel_empties, Hm).
  repeat split; try exact Ht.
  unfold tick. rewrite Ht, lookup_empty. reflexivity.
Qed.

(** C2, evaluated where it fails.  The slow downward mode is selected and
    its timer runs.  A falling edge (level 0) on the same pin, and just so
    a watchdog alert (level 2), leaves [_speed] and [_rotation] as they
    are and arms nothing, but it calls [gpioSetTimerFunc(0, 10, NULL)]:
    no timer is left and the lights stop stepping. *)
Theorem mode_alert_stops_timer :
  exists running : State,
    updateTimerMode modeDownSlow 1 0 initial = Some running /\
    timers running = {[0 := (slowSpeed, FnRotateDown)]} /\
    tick running = RotateDown running /\
    forall _level : Z, In _level [0; 2] ->
      exists stopped : State,
        updateTimerMode modeDownSlow _level 0 running = Some stopped /\
        _speed stopped = _speed running /\
        _rotation stopped = _rotation running /\
        calls stopped = calls running ++ [CallSetTimerFunc 0 10 None] /\
        timers stopped = ∅ /\
        tick stopped = stopped.
Proof.
  destruct (mode_switch_once modeDownSlow slowSpeed FnRotateDown 0 initial)
    as (running & Hrun & _ & Ht & Hk).
  { cbn. tauto. }
  { exact initial_timer0_only. }
  exists running. repeat (split; [assumption|]).
  intros _level Hl. apply mode_alert_not_rising.
  - destruct Hl as [<- | [<- | []]]; discriminate.
  - apply (single_timer0_only slowSpeed FnRotateDown), Ht.
Qed.

(** ** Start-up scan *)

Section ScanFacts.

Variable levels : Z -> bool.

Lemma scan_modes_none (ms : list Z) (st : State) :
  (forall q, In q ms -> levels q = false) -> scan_modes levels ms st = Some st.
Proof.
  induction ms as [|m ms IH]; intros H; cbn [scan_modes]; [reflexivity|].
  unfold gpioRead. rewrite (H m) by (left; reflexivity). cbn.
  apply IH. intros q Hq. apply H. right. exact Hq.
Qed.

Lemma scan_modes_first (before after : list Z) (p : Z) (st : State) :
  (forall q, In q before -> levels q = false) ->
  levels p = true ->
  scan_modes levels (before ++ p :: after) st = updateTimerMode p 1 1234 st.
Proof.
  induction before as [|m before IH]; intros Hb Hp; cbn [app scan_modes].
  - unfold gpioRead. rewrite Hp. reflexivity.
  - unfold gpioRead at 1. rewrite (Hb m) by (left; reflexivity). cbn.
    apply IH; [|exact Hp]. intros q Hq. apply Hb. right. exact Hq.
Qed.

End ScanFacts.

(** C8: when the scan finds mode switches reading high, however many,
    [setup] does not fail.  With [p] the first pin of [Modes] that reads
    high, [setup] is exactly the one call [updateTimerMode(p, 1, 1234)]:
    it succeeds, it makes one cancel and one arm and no other call, and
    the levels of the pins after [p] play no part, so any other levels
    that agree up to [p] give the same result. *)
Theorem setup_first_high_wins (levels : Z -> bool) (before after : list Z)
    (p : Z) (st : State) :
  Modes = before ++ p :: after ->
  (forall q, In q before -> levels q = false) ->
  levels p = true ->
  rotation_ok st ->
  setup levels st = updateTimerMode p 1 1234 st /\
  (exists (st' : State) (speed : Z) (f : DirectionFunction),
      setup levels st = Some st' /\
      calls st' =
        calls st ++ [CallSetTimerFunc 0 10 None;
                     CallSetTimerFunc 0 speed (Some f)]) /\
  (forall levels' : Z -> bool,
      (forall q, In q before -> levels' q = false) ->
      levels' p = true ->
      setup levels' st = setup levels st).
Proof.
  intros HM Hb Hp Hok.
  assert (forall lv : Z -> bool,
             (forall q, In q before -> lv q = false) -> lv p = true ->
             setup lv st = updateTimerMode p 1 1234 st) as Hscan.
  { intros lv Hlb Hlp. unfold setup. rewrite HM.
    apply scan_modes_first; assumption. }
  split; [apply Hscan; assumption|]. split.
  - destruct (updateTimerMode_rising p 1234 st Hok) as (f & _ & Hrun).
    eexists _, _, f. rewrite (Hscan levels Hb Hp). split; [exact Hrun|].
    apply rearm_effect.
  - intros lv Hlb Hlp. rewrite (Hscan lv Hlb Hlp), (Hscan levels Hb Hp).
    reflexivity.
Qed.

(** Two mode switches read high at start-up, medium downward and slow
    upward: the medium downward mode, first in [Modes], is selected. *)
Lemma setup_first_high_wins_witness :
  two_modes_high modeUpSlow = true /\ two_modes_high modeDownMedium = true /\
  setup two_modes_high initial = updateTimerMode modeDownMedium 1 1234 initial.
Proof.
  split; [reflexivity|]. split; [reflexivity|].
  refine (proj1 (setup_first_high_wins two_modes_high [modeRand; modeDownSlow]
           [modeDownFast; modeUpSlow; modeUpMedium; modeUpFast;
            modeFlashSlow; modeFlashMedium; modeFlashFast]
           modeDownMedium initial _ _ _ _)).
  - reflexivity.
  - intros q [<- | [<- | []]]; reflexivity.
  - reflexivity.
  - unfold rotation_ok. cbn. unfold rotateDown. lia.
Defined.

(** ** Invariants of every run *)

Lemma call_frame (f : DirectionFunction) (st : State) :
  timers (call f st) = timers st /\ _rotation (call f st) = _rotation st.
Proof.
  rewrite call_unfold, updateLights_unfold. cbn [timers _rotation].
  destruct (advance_frame f st) as (_ & _ & _ & -> & -> & _). split; reflexivity.
Qed.

Lemma tick_frame (st : State) :
  timers (tick st) = timers st /\ _rotation (tick st) = _rotation st.
Proof.
  unfold tick. destruct (timers st !! 0) as [[ms f]|].
  - apply call_frame.
  - split; reflexivity.
Qed.

Lemma updateTimerMode_preserves (_pin _level _tick : Z) (st st' : State) :
  timer0_only st -> rotation_ok st ->
  updateTimerMode _pin _level _tick st = Some st' ->
  timer0_only st' /\ rotation_ok st' /\ Sequence_Stage st' = Sequence_Stage st.
Proof.
  intros Hm Hok Hrun. destruct (decide (_level = 1)) as [-> | Hl].
  - destruct (updateTimerMode_rising _pin _tick st Hok) as (f & _ & Heq).
    rewrite Heq in Hrun. injection Hrun as <-.
    destruct (rearm_effect _pin
                (_speed (select_mode _pin (gpioSetTimerFunc 0 10 None st))) f st)
      as (_ & Ht & Hs).
    split; [|split].
    + intros t Hne. rewrite Ht.
      rewrite lookup_insert_ne, lookup_delete_ne by auto. apply Hm, Hne.
    + apply (select_mode_rotation_ok _pin (gpioSetTimerFunc 0 10 None st)), Hok.
    + exact Hs.
  - rewrite updateTimerMode_not_rising in Hrun by exact Hl.
    injection Hrun as <-. split; [|split].
    + intros t Hne. cbn [gpioSetTimerFunc timers].
      rewrite lookup_delete_ne by auto. apply Hm, Hne.
    + exact Hok.
    + reflexivity.
Qed.

Section RunFacts.

Variable shl_undef : Z -> Z -> Z.

Lemma handle_preserves (e : Event) (st st' : State) :
  timer0_only st -> rotation_ok st ->
  handle shl_undef e st = Some st' ->
  timer0_only st' /\ rotation_ok st'.
Proof.
  intros Hm Hok. unfold timer0_only, rotation_ok in *.
  destruct e as [lv p l t | lv p l t | p l t |]; cbn [handle]; intros Hrun.
  - injection Hrun as <-.
    rewrite (updateOnBias_frame shl_undef lv p l t st). split; assumption.
  - injection Hrun as <-.
    rewrite (updateOffBias_frame shl_undef lv p l t st). split; assumption.
  - destruct (updateTimerMode_preserves p l t st st' Hm Hok Hrun) as (? & ? & _).
    split; assumption.
  - injection Hrun as <-. destruct (tick_frame st) as [-> ->].
    split; assumption.
Qed.

(** In every state the program reaches, slot 0 is the only timer slot in
    use and [_rotation] is a valid index. *)
Lemma reachable_invariant (st : State) :
  reachable shl_undef st -> timer0_only st /\ rotation_ok st.
Proof.
  assert (rotation_ok initial) as Hinit
    by (unfold rotation_ok; cbn; unfold rotateDown; lia).
  induction 1 as [lv st Hsetup | e st st' _ [Hm Hok] Hrun].
  - unfold setup in Hsetup.
    assert (forall ms, scan_modes lv ms initial = Some st ->
                       timer0_only st /\ rotation_ok st) as Hscan.
    { induction ms as [|m ms IH]; cbn [scan_modes].
      - intros [= <-]. split; [exact initial_timer0_only | exact Hinit].
      - destruct (gpioRead lv m =? 0); [exact IH|]. intros Hrun.
        destruct (updateTimerMode_preserves m 1 1234 initial st
                    initial_timer0_only Hinit Hrun) as (? & ? & _).
        split; assumption. }
    apply (Hscan Modes), Hsetup.
  - apply (handle_preserves e st st'); assumption.
Qed.

(** No alert and no timer expiry ever fails in a reachable state: the
    array of direction functions is never indexed out of range. *)
Lemma reachable_progress (e : Event) (st : State) :
  reachable shl_undef st -> is_Some (handle shl_undef e st).
Proof.
  intros Hr. destruct (reachable_invariant st Hr) as [_ Hok].
  destruct e as [lv p l t | lv p l t | p l t |]; cbn [handle]; try (eexists; reflexivity).
  destruct (decide (l = 1)) as [-> | Hl].
  - destruct (updateTimerMode_rising p t st Hok) as (f & _ & ->). eexists; reflexivity.
  - rewrite updateTimerMode_not_rising by exact Hl. eexists; reflexivity.
Qed.

(** Only a timer expiry writes [Sequence_Stage]. *)
Lemma only_steps_write_stage (e : Event) (st st' : State) :
  reachable shl_undef st ->
  handle shl_undef e st = Some st' ->
  e <> TimerExpiry ->
  Sequence_Stage st' = Sequence_Stage st.
Proof.
  intros Hr Hrun He. destruct (reachable_invariant st Hr) as [Hm Hok].
  destruct e as [lv p l t | lv p l t | p l t |]; cbn [handle] in Hrun.
  - injection Hrun as <-.
    rewrite (updateOnBias_frame shl_undef lv p l t st). reflexivity.
  - injection Hrun as <-.
    rewrite (updateOffBias_frame shl_undef lv p l t st). reflexivity.
  - apply (updateTimerMode_preserves p l t st st' Hm Hok Hrun).
  - contradiction.
Qed.

End RunFacts.

(** * Further properties *)

(** ** Arithmetic of the two rotations *)

(** The bit that [rightRotate] carries to the top: [n << 31] is the sign
    bit when [n] is odd and nothing otherwise. *)
Lemma shl_31 (n : Z) : Int.shl n 31 = if Z.odd n then - 2 ^ 31 else 0.
Proof.
  unfold Int.shl, Int.wrap32. rewrite Z.shiftl_mul_pow2 by lia.
  pose proof (Z.div_mod n 2 ltac:(lia)) as Hn. rewrite Zmod_odd in Hn.
  replace (n * 2 ^ 31 + 2 ^ 31)
    with (((if Z.odd n then 1 else 0) + 1) * 2 ^ 31 + (n / 2) * 2 ^ 32) by lia.
  rewrite Z_mod_plus_full. destruct (Z.odd n); reflexivity.
Qed.

Lemma shl_1_small (n : Z) : - 2 ^ 30 <= n < 2 ^ 30 -> Int.shl n 1 = 2 * n.
Proof.
  intros Hn. unfold Int.shl, Int.wrap32. rewrite Z.shiftl_mul_pow2 by lia.
  rewrite Z.mod_small by lia. lia.
Qed.

Lemma shiftr_31_nonneg (n : Z) : 0 <= n < 2 ^ 31 -> Z.shiftr n 31 = 0.
Proof.
  intros Hn. rewrite Z.shiftr_div_pow2 by lia. apply Z.div_small. lia.
Qed.

Lemma shiftr_31_neg (n : Z) : - 2 ^ 31 <= n < 0 -> Z.shiftr n 31 = -1.
Proof.
  intros Hn. rewrite Z.shiftr_div_pow2 by lia.
  symmetry. apply (Z.div_unique n (2 ^ 31) (-1) (n + 2 ^ 31)); lia.
Qed.

(** Setting the sign bit of any integer. *)
Lemma lor_sign_bit (a : Z) : Z.lor a (- 2 ^ 31) = a mod 2 ^ 31 - 2 ^ 31.
Proof.
  pose proof (Z.add_lor_land a (- 2 ^ 31)) as Hadd.
  assert (Z.land a (- 2 ^ 31) = a / 2 ^ 31 * 2 ^ 31) as Hland.
  { change (- 2 ^ 31) with (Z.lnot (Z.ones 31)).
    rewrite <- Z.ldiff_land, Z.ldiff_ones_r by lia.
    rewrite Z.shiftl_mul_pow2, Z.shiftr_div_pow2 by lia. reflexivity. }
  pose proof (Z.div_mod a (2 ^ 31) ltac:(lia)). lia.
Qed.

(** [rightRotate] in arithmetic, for every value of an [int]: a
    non-negative value is halved and its bit 0 becomes the sign bit; a
    negative value is halved, rounding down, and its bit 0 is lost. *)
Lemma rightRotate_arith (n : Z) :
  int_range n ->
  rightRotate n =
    if 0 <=? n then n / 2 - (if Z.odd n then 2 ^ 31 else 0) else n / 2.
Proof.
  unfold int_range. intros Hn. unfold rightRotate, INT_BITS, Int.width.
  change (32 - 1) with 31. rewrite shl_31, Z.shiftr_div_pow2 by lia.
  change (2 ^ 1) with 2.
  assert (- 2 ^ 30 <= n / 2 < 2 ^ 30) as Hq
    by (split; [apply Z.div_le_lower_bound | apply Z.div_lt_upper_bound]; lia).
  destruct (Z.leb_spec 0 n) as [Hpos | Hneg].
  - assert (0 <= n / 2) by (apply Z.div_pos; lia).
    destruct (Z.odd n).
    + rewrite lor_sign_bit, Z.mod_small by lia. reflexivity.
    + rewrite Z.lor_0_r. lia.
  - assert (n / 2 < 0) by (apply Z.div_lt_upper_bound; lia).
    destruct (Z.odd n).
    + rewrite lor_sign_bit.
      replace (n / 2) with ((n / 2 + 2 ^ 31) + (-1) * 2 ^ 31) at 1 by lia.
      rewrite Z_mod_plus_full, Z.mod_small by lia. lia.
    + apply Z.lor_0_r.
Qed.

(** [leftRotate] in arithmetic, for every value of an [int]: a negative
    value becomes [-1]; a value below [2 ^ 30] is doubled. *)
Lemma leftRotate_arith (n : Z) :
  int_range n ->
  (n < 0 -> leftRotate n = -1) /\
  (0 <= n < 2 ^ 30 -> leftRotate n = 2 * n).
Proof.
  unfold int_range. intros Hn. unfold leftRotate, INT_BITS, Int.width.
  change (32 - 1) with 31. split; intros Hs.
  - rewrite shiftr_31_neg by lia. apply Z.lor_m1_r.
  - rewrite shiftr_31_nonneg, shl_1_small, Z.lor_0_r by lia. reflexivity.
Qed.

(** X1: [rightRotate] on every [int].  A non-negative even value is
    halved; a non-negative odd value is halved and gets the sign bit, so it
    turns negative; a negative value is halved rounding down, so its bit 0
    does not come back at the top.  The result is an [int] again. *)
Theorem rightRotate_is_halving (n : Z) :
  int_range n ->
  rightRotate n =
    (if 0 <=? n then n / 2 - (if Z.odd n then 2 ^ 31 else 0) else n / 2) /\
  int_range (rightRotate n).
Proof.
  intros Hn. pose proof (rightRotate_arith n Hn) as Heq.
  split; [exact Heq|]. rewrite Heq. unfold int_range in *.
  assert (- 2 ^ 30 <= n / 2 < 2 ^ 30) as Hq
    by (split; [apply Z.div_le_lower_bound | apply Z.div_lt_upper_bound]; lia).
  destruct (Z.leb_spec 0 n) as [Hpos | Hneg]; [|lia].
  assert (0 <= n / 2) by (apply Z.div_pos; lia).
  destruct (Z.odd n); lia.
Qed.

Lemma rightRotate_is_halving_witness :
  int_range 5 /\ rightRotate 5 = 2 - 2 ^ 31 /\ int_range (rightRotate 5).
Proof.
  assert (int_range 5) as H by (unfold int_range; lia).
  split; [exact H|]. exact (rightRotate_is_halving 5 H).
Defined.

(** X2: [leftRotate] on every [int].  A negative value becomes [-1], all
    bits set, whatever it was; a value from 0 up to [2 ^ 30 - 1] is
    doubled, its top bit not coming back at bit 0.  The result is an [int]
    again. *)
Theorem leftRotate_doubles_or_saturates (n : Z) :
  int_range n ->
  (n < 0 -> leftRotate n = -1) /\
  (0 <= n < 2 ^ 30 -> leftRotate n = 2 * n) /\
  int_range (leftRotate n).
Proof.
  intros Hn. destruct (leftRotate_arith n Hn) as [Hneg Hsmall].
  split; [exact Hneg|]. split; [exact Hsmall|].
  unfold int_range in *. destruct (Z.lt_ge_cases n 0) as [Hs | Hs].
  - rewrite Hneg by exact Hs. lia.
  - unfold leftRotate, INT_BITS, Int.width. change (32 - 1) with 31.
    rewrite shiftr_31_nonneg, Z.lor_0_r by lia.
    unfold Int.shl, Int.wrap32.
    pose proof (Z.mod_pos_bound (Z.shiftl n 1 + 2 ^ 31) (2 ^ 32) ltac:(lia)).
    lia.
Qed.

Lemma leftRotate_doubles_or_saturates_witness :
  int_range (-6) /\ leftRotate (-6) = -1.
Proof.
  assert (int_range (-6)) as H by (unfold int_range; lia).
  split; [exact H|].
  apply (leftRotate_doubles_or_saturates (-6) H). lia.
Defined.

(** X3: how the two rotations compose, on every [int].  Down after up
    gives the value back when it lies between 0 and [2 ^ 30 - 1].
    Up after down gives the value back when it is non-negative and even,
    and gives [-1] in every other case. *)
Theorem rotations_compose (n : Z) :
  int_range n ->
  (0 <= n < 2 ^ 30 -> rightRotate (leftRotate n) = n) /\
  leftRotate (rightRotate n) = (if (0 <=? n) && Z.even n then n else -1).
Proof.
  intros Hn. split.
  - intros Hs. destruct (leftRotate_arith n Hn) as [_ ->]; [|exact Hs].
    rewrite rightRotate_arith by (unfold int_range; lia).
    destruct (Z.leb_spec 0 (2 * n)) as [_ | ?]; [|lia].
    rewrite Z.odd_mul, andb_false_l.
    rewrite (Z.mul_comm 2 n), Z.div_mul by lia. lia.
  - pose proof (rightRotate_arith n Hn) as Heq. unfold int_range in Hn.
    assert (- 2 ^ 30 <= n / 2 < 2 ^ 30) as Hq
      by (split; [apply Z.div_le_lower_bound | apply Z.div_lt_upper_bound]; lia).
    rewrite <- Z.negb_odd.
    destruct (Z.leb_spec 0 n) as [Hpos | Hneg]; cbn [andb].
    + assert (0 <= n / 2) by (apply Z.div_pos; lia).
      pose proof (Z.div_mod n 2 ltac:(lia)) as Hdm. rewrite Zmod_odd in Hdm.
      destruct (Z.odd n); cbn [negb]; rewrite Heq.
      * apply leftRotate_arith; unfold int_range; lia.
      * destruct (leftRotate_arith (n / 2 - 0)) as [_ ->];
          unfold int_range; lia.
    + assert (n / 2 < 0) by (apply Z.div_lt_upper_bound; lia).
      rewrite Heq. apply leftRotate_arith; unfold int_range; lia.
Qed.

Lemma rotations_compose_witness :
  int_range 6 /\ rightRotate (leftRotate 6) = 6 /\
  leftRotate (rightRotate 6) = 6.
Proof.
  assert (int_range 6) as H by (unfold int_range; lia).
  split; [exact H|].
  destruct (rotations_compose 6 H) as [H1 H2].
  split; [apply H1; lia | exact H2].
Defined.

(** ** Runs of one step function *)

Lemma iter_leftRotate (k : nat) (s : Z) :
  0 <= s -> s * 2 ^ Z.of_nat k < 2 ^ 31 ->
  Nat.iter k leftRotate s = s * 2 ^ Z.of_nat k.
Proof.
  intros Hs. induction k as [|k IH]; intros Hk.
  - cbn. lia.
  - rewrite Nat2Z.inj_succ, Z.pow_succ_r in * by lia.
    assert (0 < 2 ^ Z.of_nat k) by (apply Z.pow_pos_nonneg; lia).
    rewrite Nat.iter_succ. rewrite IH by nia.
    destruct (leftRotate_arith (s * 2 ^ Z.of_nat k)) as [_ ->];
      unfold int_range; nia.
Qed.

Lemma iter_rightRotate_neg (k : nat) (s : Z) :
  int_range s -> s < 0 ->
  Nat.iter k rightRotate s = s / 2 ^ Z.of_nat k.
Proof.
  unfold int_range. intros Hr Hs. induction k as [|k IH].
  - cbn. rewrite Z.div_1_r. reflexivity.
  - rewrite Nat2Z.inj_succ, Z.pow_succ_r by lia.
    assert (0 < 2 ^ Z.of_nat k) as Hp by (apply Z.pow_pos_nonneg; lia).
    assert (- 2 ^ 31 <= s / 2 ^ Z.of_nat k < 0) as Hq
      by (split; [apply Z.div_le_lower_bound | apply Z.div_lt_upper_bound]; nia).
    rewrite Nat.iter_succ, IH, rightRotate_arith by (unfold int_range; lia).
    destruct (Z.leb_spec 0 (s / 2 ^ Z.of_nat k)) as [? | _]; [lia|].
    rewrite Z.div_div by lia. f_equal. lia.
Qed.

Lemma div_pow2_saturates (k : nat) (s : Z) :
  int_range s -> s < 0 -> (31 <= k)%nat -> s / 2 ^ Z.of_nat k = -1.
Proof.
  unfold int_range. intros Hr Hs Hk.
  assert (2 ^ 31 <= 2 ^ Z.of_nat k) by (apply Z.pow_le_mono_r; lia).
  symmetry. apply (Z.div_unique s (2 ^ Z.of_nat k) (-1) (s + 2 ^ Z.of_nat k)); lia.
Qed.

Lemma RotateUp_frame (st : State) :
  Sequence_Stage (RotateUp st) = leftRotate (Sequence_Stage st) /\
  BIAS_ON_MASK (RotateUp st) = BIAS_ON_MASK st /\
  BIAS_OFF_MASK (RotateUp st) = BIAS_OFF_MASK st.
Proof.
  change (RotateUp st) with (call FnRotateUp st).
  rewrite call_unfold, updateLights_unfold. repeat split.
Qed.

Lemma RotateDown_frame (st : State) :
  Sequence_Stage (RotateDown st) = rightRotate (Sequence_Stage st) /\
  BIAS_ON_MASK (RotateDown st) = BIAS_ON_MASK st /\
  BIAS_OFF_MASK (RotateDown st) = BIAS_OFF_MASK st.
Proof.
  change (RotateDown st) with (call FnRotateDown st).
  rewrite call_unfold, updateLights_unfold. repeat split.
Qed.

Lemma iter_RotateUp_frame (k : nat) (st : State) :
  Sequence_Stage (Nat.iter k RotateUp st) =
    Nat.iter k leftRotate (Sequence_Stage st) /\
  BIAS_ON_MASK (Nat.iter k RotateUp st) = BIAS_ON_MASK st /\
  BIAS_OFF_MASK (Nat.iter k RotateUp st) = BIAS_OFF_MASK st.
Proof.
  induction k as [|k (IHs & IHon & IHoff)]; [repeat split|].
  rewrite Nat.iter_succ.
  destruct (RotateUp_frame (Nat.iter k RotateUp st)) as (-> & -> & ->).
  rewrite IHs, IHon, IHoff. repeat split.
Qed.

Lemma iter_RotateDown_frame (k : nat) (st : State) :
  Sequence_Stage (Nat.iter k RotateDown st) =
    Nat.iter k rightRotate (Sequence_Stage st) /\
  BIAS_ON_MASK (Nat.iter k RotateDown st) = BIAS_ON_MASK st /\
  BIAS_OFF_MASK (Nat.iter k RotateDown st) = BIAS_OFF_MASK st.
Proof.
  induction k as [|k (IHs & IHon & IHoff)]; [repeat split|].
  rewrite Nat.iter_succ.
  destruct (RotateDown_frame (Nat.iter k RotateDown st)) as (-> & -> & ->).
  rewrite IHs, IHon, IHoff. repeat split.
Qed.

(** What lamp [i] shows after a step, from the stored value and the
    masks of the state the step started in. *)
Lemma lamp_after_call (f : DirectionFunction) (st : State) (i : Z) :
  0 <= i < 3 ->
  outputs (call f st) !! lamp_pin i =
  Some (Z.b2z ((Z.testbit (candidate f st) i || Z.testbit (BIAS_ON_MASK st) i)
               && Z.testbit (BIAS_OFF_MASK st) i)).
Proof.
  intros Hi. rewrite call_unfold, updateLights_output by assumption.
  rewrite to_uint8_testbit, Z.land_spec, Z.lor_spec by lia. reflexivity.
Qed.

(** X4: a run of [RotateUp] ticks.  From a non-negative [Sequence_Stage]
    [s], after [k] ticks the stored value is [s * 2 ^ k], as long as that
    is below [2 ^ 31]: the pattern moves up and out of the three lamp
    bits.  With nothing forced on, from the third tick on every lamp is
    written 0. *)
Theorem RotateUp_run (k : nat) (st : State) :
  0 <= Sequence_Stage st ->
  Sequence_Stage st * 2 ^ Z.of_nat k < 2 ^ 31 ->
  Sequence_Stage (Nat.iter k RotateUp st) = Sequence_Stage st * 2 ^ Z.of_nat k /\
  (BIAS_ON_MASK st = 0 -> (3 <= k)%nat ->
   forall i, 0 <= i < 3 ->
     outputs (Nat.iter k RotateUp st) !! lamp_pin i = Some 0).
Proof.
  intros Hs Hk. split.
  - destruct (iter_RotateUp_frame k st) as (-> & _).
    apply iter_leftRotate; assumption.
  - intros Hon H3 i Hi. destruct k as [|k]; [lia|].
    rewrite Nat.iter_succ. change RotateUp with (call FnRotateUp).
    rewrite lamp_after_call by exact Hi. cbn [candidate].
    change (call FnRotateUp) with RotateUp.
    pose proof (iter_RotateUp_frame (S k) st) as (HS & _).
    rewrite Nat.iter_succ in HS. destruct (RotateUp_frame (Nat.iter k RotateUp st)) as (HS' & _).
    rewrite <- HS', HS, iter_leftRotate by assumption.
    destruct (iter_RotateUp_frame k st) as (_ & -> & _).
    rewrite Hon, Z.bits_0, orb_false_r.
    rewrite Z.mul_pow2_bits_low by lia. reflexivity.
Qed.

(** From the start value, red: after four ticks the stored value is
    [0b1000000] and red is written 0. *)
Lemma RotateUp_run_witness :
  Sequence_Stage (Nat.iter 4 RotateUp initial) = 4 * 2 ^ 4 /\
  outputs (Nat.iter 4 RotateUp initial) !! lamp_pin 2 = Some 0.
Proof.
  assert (0 <= Sequence_Stage initial) as H0 by (cbn; lia).
  assert (Sequence_Stage initial * 2 ^ Z.of_nat 4 < 2 ^ 31) as H1 by (cbn; lia).
  destruct (RotateUp_run 4 initial H0 H1) as [Hs Hl].
  split; [exact Hs|]. apply Hl; [reflexivity | lia | lia].
Defined.

(** X5: a run of [RotateDown] ticks.  From a negative [Sequence_Stage]
    [s], after [k] ticks the stored value is [s / 2 ^ k] rounded down:
    still negative, and [-1] from the 31st tick on.  From then on every
    lamp is written the bit of the OFF mask, whatever the ON mask: with no
    lamp forced off, all three are lit at every tick. *)
Theorem RotateDown_run (k : nat) (st : State) :
  int_range (Sequence_Stage st) ->
  Sequence_Stage st < 0 ->
  Sequence_Stage (Nat.iter k RotateDown st) = Sequence_Stage st / 2 ^ Z.of_nat k /\
  Sequence_Stage (Nat.iter k RotateDown st) < 0 /\
  ((31 <= k)%nat ->
   Sequence_Stage (Nat.iter k RotateDown st) = -1 /\
   forall i, 0 <= i < 3 ->
     outputs (Nat.iter (S k) RotateDown st) !! lamp_pin i =
     Some (Z.b2z (Z.testbit (BIAS_OFF_MASK st) i))).
Proof.
  intros Hr Hs.
  assert (Sequence_Stage (Nat.iter k RotateDown st)
          = Sequence_Stage st / 2 ^ Z.of_nat k) as Heq.
  { destruct (iter_RotateDown_frame k st) as (-> & _).
    apply iter_rightRotate_neg; assumption. }
  split; [exact Heq|]. split.
  - rewrite Heq. apply Z.div_lt_upper_bound; [apply Z.pow_pos_nonneg; lia|lia].
  - intros Hk.
    assert (Sequence_Stage (Nat.iter k RotateDown st) = -1) as Hm1
      by (rewrite Heq; apply div_pow2_saturates; assumption).
    split; [exact Hm1|]. intros i Hi.
    rewrite Nat.iter_succ. change RotateDown with (call FnRotateDown) at 1.
    rewrite lamp_after_call by exact Hi. cbn [candidate]. rewrite Hm1.
    destruct (iter_RotateDown_frame k st) as (_ & _ & ->).
    change (rightRotate (-1)) with (-1).
    rewrite Z.bits_m1 by lia. reflexivity.
Qed.

(** Green alone is lit and the lights turn downwards: the next value is
    the sign bit; 31 ticks later the stored value is [-1]. *)
Lemma RotateDown_run_witness :
  Sequence_Stage (RotateDown (set_Sequence_Stage 1 initial)) = - 2 ^ 31 /\
  Sequence_Stage
    (Nat.iter 31 RotateDown (RotateDown (set_Sequence_Stage 1 initial))) = -1.
Proof.
  split; [reflexivity|].
  set (st := RotateDown (set_Sequence_Stage 1 initial)).
  assert (Sequence_Stage st = - 2 ^ 31) as E by reflexivity.
  assert (int_range (Sequence_Stage st)) as Hr
    by (unfold int_range; rewrite E; lia).
  assert (Sequence_Stage st < 0) as Hs by (rewrite E; lia).
  destruct (RotateDown_run 31 st Hr Hs) as (_ & _ & Hk).
  apply Hk. lia.
Defined.

(** ** Flashing *)

(** X6: [RotateNone] toggles.  It never touches [Sequence_Stage]; lamp
    [i] is written the complement of bit [i] of [flash_step], subject to
    the masks, and at the next call bit [i] itself; after two calls
    [flash_step] is what it was. *)
Theorem RotateNone_toggles (st : State) (i : Z) :
  0 <= i < 3 ->
  Sequence_Stage (RotateNone st) = Sequence_Stage st /\
  flash_step (RotateNone (RotateNone st)) = flash_step st /\
  outputs (RotateNone st) !! lamp_pin i =
    Some (Z.b2z ((negb (Z.testbit (flash_step st) i)
                  || Z.testbit (BIAS_ON_MASK st) i)
                 && Z.testbit (BIAS_OFF_MASK st) i)) /\
  outputs (RotateNone (RotateNone st)) !! lamp_pin i =
    Some (Z.b2z ((Z.testbit (flash_step st) i
                  || Z.testbit (BIAS_ON_MASK st) i)
                 && Z.testbit (BIAS_OFF_MASK st) i)).
Proof.
  intros Hi.
  assert (flash_step (RotateNone st) = Z.lnot (flash_step st) /\
          BIAS_ON_MASK (RotateNone st) = BIAS_ON_MASK st /\
          BIAS_OFF_MASK (RotateNone st) = BIAS_OFF_MASK st) as (Hf & Hon & Hoff).
  { change (RotateNone st) with (call FnRotateNone st).
    rewrite call_unfold, updateLights_unfold. repeat split. }
  split; [|split; [|split]].
  - change (RotateNone st) with (call FnRotateNone st).
    rewrite call_unfold, updateLights_unfold. reflexivity.
  - change (RotateNone (RotateNone st)) with (call FnRotateNone (RotateNone st)).
    rewrite call_unfold, updateLights_unfold. cbn [flash_step advance candidate
      set_flash_step].
    rewrite Hf. apply Z.lnot_involutive.
  - change (RotateNone st) with (call FnRotateNone st).
    rewrite lamp_after_call by exact Hi. cbn [candidate].
    rewrite Z.lnot_spec by lia. reflexivity.
  - change (RotateNone (RotateNone st)) with (call FnRotateNone (RotateNone st)).
    rewrite lamp_after_call by exact Hi. cbn [candidate].
    rewrite Hf, Hon, Hoff, Z.lnot_involutive. reflexivity.
Qed.

(** From the start, with no bias: the first call writes amber 0, the
    second writes amber 1. *)
Lemma RotateNone_toggles_witness :
  outputs (RotateNone initial) !! lamp_pin 1 = Some 0 /\
  outputs (RotateNone (RotateNone initial)) !! lamp_pin 1 = Some 1.
Proof.
  destruct (RotateNone_toggles initial 1 ltac:(lia)) as (_ & _ & H1 & H2).
  split; [exact H1 | exact H2].
Defined.

(** ** What a step leaves alone *)

Lemma call_effect (f : DirectionFunction) (st : State) :
  BIAS_ON_MASK (call f st) = BIAS_ON_MASK st /\
  BIAS_OFF_MASK (call f st) = BIAS_OFF_MASK st /\
  _speed (call f st) = _speed st /\
  _rotation (call f st) = _rotation st /\
  timers (call f st) = timers st /\
  exists r : Z,
    calls (call f st) = calls st ++ lamp_writes r /\
    outputs (call f st) =
      <[greenLight := Z.b2z (Z.testbit r 0)]>
        (<[amberLight := Z.b2z (Z.testbit r 1)]>
           (<[redLight := Z.b2z (Z.testbit r 2)]> (outputs st))).
Proof.
  rewrite call_unfold, updateLights_unfold.
  cbn [BIAS_ON_MASK BIAS_OFF_MASK _speed _rotation timers calls outputs].
  destruct (advance_frame f st) as (-> & -> & -> & -> & -> & -> & ->).
  repeat (split; [reflexivity|]). eexists. split; reflexivity.
Qed.

(** X7: a step function writes the three lamps and nothing else.  Both
    masks, [_speed], [_rotation] and the timer slots are as before, the
    level of every pin that is not a light is as before, and the step
    makes exactly three calls, all of them writes. *)
Theorem step_writes_lamps_only (f : DirectionFunction) (st : State) (pin : Z) :
  ~ In pin Lights ->
  BIAS_ON_MASK (call f st) = BIAS_ON_MASK st /\
  BIAS_OFF_MASK (call f st) = BIAS_OFF_MASK st /\
  _speed (call f st) = _speed st /\
  _rotation (call f st) = _rotation st /\
  timers (call f st) = timers st /\
  outputs (call f st) !! pin = outputs st !! pin /\
  exists r g a : Z,
    calls (call f st) =
      calls st ++ [CallWrite redLight r; CallWrite amberLight a;
                   CallWrite greenLight g].
Proof.
  intros Hpin.
  destruct (call_effect f st) as (Hon & Hoff & Hs & Hr & Ht & r & Hc & Ho).
  repeat (split; [assumption|]). split.
  - rewrite Ho. cbn [Lights In] in Hpin.
    rewrite !lookup_insert_ne by (intros E; apply Hpin; rewrite <- E; tauto).
    reflexivity.
  - rewrite Hc. unfold lamp_writes. eexists _, _, _. reflexivity.
Qed.

Lemma step_writes_lamps_only_witness :
  outputs (call FnRotateDown initial) !! redOnBias = outputs initial !! redOnBias.
Proof.
  apply (step_writes_lamps_only FnRotateDown initial redOnBias).
  cbn. unfold redOnBias, redLight, amberLight, greenLight. lia.
Defined.

(** ** More on the bias callbacks *)

(** X8: the value [updateOnBias] stores on level 0 or 1.  It is the red
    read shifted left by the sum of the amber and green reads: one of 0,
    1, 2, 4; it is 0 whenever the red switch reads 0, and its red bit is
    set only when all three switches read 1.  The undefined shifts play no
    part, and neither do the pin, the tick or the mask stored before. *)
Theorem on_mask_value (shl_undef : Z -> Z -> Z) (levels : Z -> bool)
    (_pin _level _tick : Z) (st : State) :
  _level = 0 \/ _level = 1 ->
  let m := BIAS_ON_MASK (updateOnBias shl_undef levels _pin _level _tick st) in
  m = Z.shiftl (gpioRead levels redOnBias)
               (gpioRead levels amberOnBias + gpioRead levels greenOnBias) /\
  In m [0; 1; 2; 4] /\
  (levels redOnBias = false -> m = 0) /\
  (Z.testbit m 2 = true <->
   levels redOnBias = true /\ levels amberOnBias = true /\
   levels greenOnBias = true).
Proof.
  intros Hl m.
  assert (m = Z.shiftl (gpioRead levels redOnBias)
                (gpioRead levels amberOnBias + gpioRead levels greenOnBias))
    as Hm by (apply updateOnBias_mask; exact Hl).
  split; [exact Hm|]. rewrite Hm. unfold gpioRead.
  destruct (levels redOnBias), (levels amberOnBias), (levels greenOnBias);
    cbn; intuition (discriminate || lia).
Qed.

(** Green's ON switch alone reads 1: the mask is 0. *)
Lemma on_mask_value_witness :
  BIAS_ON_MASK
    (updateOnBias (fun _ _ => 0) (pins_high [greenOnBias]) greenOnBias 1 0 initial)
  = 0.
Proof.
  apply (on_mask_value (fun _ _ => 0) (pins_high [greenOnBias]) greenOnBias 1 0
           initial); [right|]; reflexivity.
Defined.

(** X9: how the bias callbacks compose.  On level 0 or 1 a callback
    overwrites its mask entirely, so after two alerts of one kind the state
    is that of the second alone; and an ON alert and an OFF alert commute,
    each keeping to its own mask. *)
Theorem bias_alerts_compose (shl_undef : Z -> Z -> Z)
    (levels1 levels2 : Z -> bool) (pin1 level1 tick1 pin2 level2 tick2 : Z)
    (st : State) :
  level2 = 0 \/ level2 = 1 ->
  updateOnBias shl_undef levels2 pin2 level2 tick2
    (updateOnBias shl_undef levels1 pin1 level1 tick1 st) =
  updateOnBias shl_undef levels2 pin2 level2 tick2 st /\
  updateOffBias shl_undef levels2 pin2 level2 tick2
    (updateOffBias shl_undef levels1 pin1 level1 tick1 st) =
  updateOffBias shl_undef levels2 pin2 level2 tick2 st /\
  updateOnBias shl_undef levels2 pin2 level2 tick2
    (updateOffBias shl_undef levels1 pin1 level1 tick1 st) =
  updateOffBias shl_undef levels1 pin1 level1 tick1
    (updateOnBias shl_undef levels2 pin2 level2 tick2 st).
Proof.
  intros Hl. unfold updateOnBias, updateOffBias.
  assert ((level2 =? 0) || (level2 =? 1) = true) as ->
    by (destruct Hl as [-> | ->]; reflexivity).
  destruct ((level1 =? 0) || (level1 =? 1)); repeat split.
Qed.

Lemma bias_alerts_compose_witness :
  updateOnBias (fun _ _ => 0) (pins_high [redOnBias]) redOnBias 0 7
    (updateOnBias (fun _ _ => 0) (pins_high [redOnBias; amberOnBias])
       amberOnBias 1 5 initial) =
  updateOnBias (fun _ _ => 0) (pins_high [redOnBias]) redOnBias 0 7 initial.
Proof.
  apply (bias_alerts_compose (fun _ _ => 0) (pins_high [redOnBias; amberOnBias])
           (pins_high [redOnBias]) amberOnBias 1 5 redOnBias 0 7 initial).
  left. reflexivity.
Defined.

(** ** More on the mode dial *)

Lemma select_mode_speed_ok (_pin : Z) (st : State) :
  speed_ok st -> speed_ok (select_mode _pin st).
Proof.
  unfold select_mode, speed_ok. intros H.
  repeat (match goal with |- context [if ?b then _ else _] => destruct b end;
          [assumption || (cbn; tauto)|]).
  assumption.
Qed.

Lemma select_mode_unlisted (_pin : Z) (st : State) :
  ~ In _pin table_pins -> select_mode _pin st = st.
Proof.
  unfold table_pins, mode_table. cbn [map fst In]. intros H.
  unfold select_mode.
  repeat (match goal with
          | |- context [if ?p =? ?q then _ else _] =>
              destruct (Z.eqb_spec p q) as [E | _];
              [try reflexivity; exfalso; apply H; rewrite E; tauto|]
          end).
  reflexivity.
Qed.

(** X10: a rising edge on a pin without a table entry, such as the
    random-mode pin.  [_speed] and [_rotation] keep their values, yet the
    timer is cancelled and started anew with them: the sequence goes on in
    the mode selected before, its interval starting afresh. *)
Theorem unlisted_pin_restarts_timer (_pin _tick : Z) (st : State) :
  ~ In _pin table_pins ->
  rotation_ok st ->
  timer0_only st ->
  exists (st' : State) (f : DirectionFunction),
    updateTimerMode _pin 1 _tick st = Some st' /\
    _directionFunction !! Z.to_nat (_rotation st) = Some f /\
    _speed st' = _speed st /\ _rotation st' = _rotation st /\
    timers st' = {[0 := (_speed st, f)]} /\
    calls st' =
      calls st ++ [CallSetTimerFunc 0 10 None;
                   CallSetTimerFunc 0 (_speed st) (Some f)].
Proof.
  intros Hpin Hok Hm.
  destruct (updateTimerMode_rising _pin _tick st Hok) as (f & Hf & Hrun).
  rewrite select_mode_unlisted in Hf, Hrun by exact Hpin.
  eexists _, f. split; [exact Hrun|]. split; [exact Hf|].
  cbn [gpioSetTimerFunc _speed _rotation timers calls].
  rewrite (rearm_single _ _ Hm), <- app_assoc. repeat split.
Qed.

Lemma unlisted_pin_restarts_timer_witness :
  exists st' : State,
    updateTimerMode modeRand 1 0 initial = Some st' /\
    timers st' = {[0 := (mediumSpeed, FnRotateDown)]}.
Proof.
  destruct (unlisted_pin_restarts_timer modeRand 0 initial)
    as (st' & f & Hrun & Hf & _ & _ & Ht & _).
  - cbn. unfold modeRand, modeDownSlow, modeDownMedium, modeDownFast,
      modeUpSlow, modeUpMedium, modeUpFast, modeFlashSlow, modeFlashMedium,
      modeFlashFast. lia.
  - unfold rotation_ok. cbn. unfold rotateDown. lia.
  - exact initial_timer0_only.
  - exists st'. split; [exact Hrun|].
    injection Hf as <-. exact Ht.
Defined.

(** ** More on the start-up scan *)

Lemma updateTimerMode_rising_calls (_pin _tick : Z) (st st' : State) :
  updateTimerMode _pin 1 _tick st = Some st' ->
  exists c1 c2 : GpioCall, calls st' = calls st ++ [c1; c2].
Proof.
  unfold updateTimerMode. cbn [Z.eqb Pos.eqb negb].
  set (s1 := select_mode _pin (gpioSetTimerFunc 0 10 None st)).
  destruct (_rotation s1 <? 0); [discriminate|].
  destruct (_directionFunction !! Z.to_nat (_rotation s1)) as [f|];
    [|discriminate].
  intros [= <-]. cbn [gpioSetTimerFunc calls]. unfold s1.
  destruct (select_mode_calls _pin (gpioSetTimerFunc 0 10 None st)) as (-> & _).
  cbn [gpioSetTimerFunc calls]. rewrite <- app_assoc. eexists _, _. reflexivity.
Qed.

Lemma scan_modes_unchanged (levels : Z -> bool) (ms : list Z) (st : State) :
  scan_modes levels ms st = Some st ->
  forall q, In q ms -> levels q = false.
Proof.
  induction ms as [|m ms IH]; cbn [scan_modes In]; [tauto|].
  unfold gpioRead at 1. destruct (levels m) eqn:Hm; cbn [Z.b2z Z.eqb].
  - intros Hrun. apply updateTimerMode_rising_calls in Hrun as (c1 & c2 & Hc).
    apply (f_equal (@length GpioCall)) in Hc.
    rewrite length_app in Hc. cbn in Hc. lia.
  - intros Hrun q [<- | Hq]; [exact Hm | apply IH; assumption].
Qed.

(** X11: the scan leaves the state as it is exactly when no mode switch
    reads high.  Then it has gone through all ten pins, made no call and
    armed no timer, and the lights wait for the first rising edge of the
    dial. *)
Theorem setup_without_mode (levels : Z -> bool) (st : State) :
  setup levels st = Some st <-> (forall q, In q Modes -> levels q = false).
Proof.
  unfold setup. split.
  - apply scan_modes_unchanged.
  - apply scan_modes_none.
Qed.

Lemma setup_without_mode_witness : setup all_low initial = Some initial.
Proof.
  apply (proj2 (setup_without_mode all_low initial)). intros q _. reflexivity.
Defined.

(** ** Invariants of every run, continued *)

Lemma lamp_writes_ok (r : Z) : Forall call_ok (lamp_writes r).
Proof.
  assert (forall b : bool, Z.b2z b = 0 \/ Z.b2z b = 1) as Hb
    by (intros []; cbn; tauto).
  unfold lamp_writes.
  constructor; [|constructor; [|constructor; [|constructor]]];
    (split; [cbn [Lights In]; tauto | apply Hb]).
Qed.

Lemma run_invariant_initial : run_invariant initial.
Proof.
  split; [|split; [|split]].
  - left. reflexivity.
  - unfold rotation_ok. cbn. unfold rotateDown. lia.
  - right. left. reflexivity.
  - apply Forall_nil_2.
Qed.

Lemma run_invariant_statics (st st' : State) :
  timers st' = timers st -> _speed st' = _speed st ->
  _rotation st' = _rotation st ->
  Forall call_ok (calls st') ->
  run_invariant st -> run_invariant st'.
Proof.
  unfold run_invariant, timer_agrees, rotation_ok, speed_ok.
  intros -> -> -> Hc (Ht & Hr & Hs & _).
  split; [|split; [|split]]; assumption.
Qed.

Lemma run_invariant_call (f : DirectionFunction) (st : State) :
  run_invariant st -> run_invariant (call f st).
Proof.
  intros Hinv.
  destruct (call_effect f st) as (_ & _ & Hs & Hr & Ht & r & Hc & _).
  apply (run_invariant_statics st); try assumption.
  rewrite Hc. apply Forall_app. split; [apply Hinv | apply lamp_writes_ok].
Qed.

Lemma run_invariant_tick (st : State) :
  run_invariant st -> run_invariant (tick st).
Proof.
  intros Hinv. unfold tick. destruct (timers st !! 0) as [[ms f]|].
  - apply run_invariant_call, Hinv.
  - exact Hinv.
Qed.

Lemma run_invariant_cancel (st : State) :
  run_invariant st ->
  run_invariant (gpioSetTimerFunc 0 10 None st) /\
  timers (gpioSetTimerFunc 0 10 None st) = ∅.
Proof.
  intros (Ht & Hr & Hs & Hc).
  assert (timers (gpioSetTimerFunc 0 10 None st) = ∅) as He.
  { cbn [gpioSetTimerFunc timers]. destruct Ht as [-> | (f & _ & ->)].
    - apply delete_empty.
    - apply delete_singleton_eq. }
  split; [|exact He]. split; [|split; [|split]].
  - left. exact He.
  - exact Hr.
  - exact Hs.
  - cbn [gpioSetTimerFunc calls]. apply Forall_app. split; [exact Hc|].
    apply Forall_cons_2; [|apply Forall_nil_2]. split; reflexivity.
Qed.

Lemma run_invariant_updateTimerMode (_pin _level _tick : Z) (st st' : State) :
  run_invariant st ->
  updateTimerMode _pin _level _tick st = Some st' ->
  run_invariant st'.
Proof.
  intros Hinv Hrun.
  destruct (run_invariant_cancel st Hinv) as ((_ & Hr0 & Hs0 & Hc0) & He).
  destruct (decide (_level = 1)) as [-> | Hl].
  - assert (rotation_ok st) as Hok by apply Hinv.
    destruct (updateTimerMode_rising _pin _tick st Hok) as (f & Hf & Heq).
    rewrite Heq in Hrun. injection Hrun as <-.
    set (s0 := gpioSetTimerFunc 0 10 None st) in *.
    pose proof (select_mode_rotation_ok _pin s0 Hr0) as Hr1.
    pose proof (select_mode_speed_ok _pin s0 Hs0) as Hs1.
    destruct (select_mode_calls _pin s0) as (Hc1 & Ht1 & _).
    split; [|split; [|split]].
    + right. exists f. split; [exact Hf|].
      cbn [gpioSetTimerFunc timers _speed]. rewrite Ht1, He.
      reflexivity.
    + exact Hr1.
    + exact Hs1.
    + cbn [gpioSetTimerFunc calls]. rewrite Hc1.
      apply Forall_app. split; [exact Hc0|].
      apply Forall_cons_2; [|apply Forall_nil_2]. split; [reflexivity|exact Hs1].
  - rewrite updateTimerMode_not_rising in Hrun by exact Hl.
    injection Hrun as <-. apply run_invariant_cancel, Hinv.
Qed.

Lemma run_invariant_scan (levels : Z -> bool) (ms : list Z) (st st' : State) :
  run_invariant st -> scan_modes levels ms st = Some st' -> run_invariant st'.
Proof.
  intros Hinv. induction ms as [|m ms IH]; cbn [scan_modes].
  - intros [= <-]. exact Hinv.
  - destruct (gpioRead levels m =? 0); [exact IH|].
    apply run_invariant_updateTimerMode, Hinv.
Qed.

Section RunFactsContinued.

Variable shl_undef : Z -> Z -> Z.

Lemma run_invariant_handle (e : Event) (st st' : State) :
  run_invariant st -> handle shl_undef e st = Some st' -> run_invariant st'.
Proof.
  intros Hinv.
  destruct e as [lv p l t | lv p l t | p l t |]; cbn [handle].
  - intros [= <-]. rewrite (updateOnBias_frame shl_undef lv p l t st).
    apply (run_invariant_statics st); try reflexivity; [apply Hinv | exact Hinv].
  - intros [= <-]. rewrite (updateOffBias_frame shl_undef lv p l t st).
    apply (run_invariant_statics st); try reflexivity; [apply Hinv | exact Hinv].
  - apply run_invariant_updateTimerMode, Hinv.
  - intros [= <-]. apply run_invariant_tick, Hinv.
Qed.

Lemma reachable_run_invariant (st : State) :
  reachable shl_undef st -> run_invariant st.
Proof.
  induction 1 as [lv st Hsetup | e st st' _ IH Hrun].
  - apply (run_invariant_scan lv Modes initial st run_invariant_initial Hsetup).
  - apply (run_invariant_handle e st st' IH Hrun).
Qed.

(** X12: in every state of every run, the timer is in step with the mode
    statics.  Either no timer runs, or exactly timer 0 runs, with
    [_speed] as its interval and the direction function at index
    [_rotation] as its callback; [_rotation] is 0, 1 or 2 and [_speed] is
    one of the three intervals. *)
Theorem timer_follows_mode (st : State) :
  reachable shl_undef st ->
  (timers st = ∅ \/
   exists f : DirectionFunction,
     _directionFunction !! Z.to_nat (_rotation st) = Some f /\
     timers st = {[0 := (_speed st, f)]}) /\
  0 <= _rotation st < 3 /\
  In (_speed st) [slowSpeed; mediumSpeed; fastSpeed].
Proof.
  intros Hr. destruct (reachable_run_invariant st Hr) as (Ht & Hrot & Hs & _).
  split; [exact Ht|]. split; [exact Hrot | exact Hs].
Qed.


(** X14: no alert and no timer expiry fails in a state the program
    reaches: [updateTimerMode] finds [_rotation] inside the array of
    direction functions whenever it is called. *)
Theorem run_never_fails (e : Event) (st : State) :
  reachable shl_undef st ->
  exists st' : State, handle shl_undef e st = Some st' /\ reachable shl_undef st'.
Proof.
  intros Hr. destruct (reachable_progress shl_undef e st Hr) as [st' Hrun].
  exists st'. split; [exact Hrun|].
  apply (reach_event shl_undef e st st' Hr Hrun).
Qed.

End RunFactsContinued.

Lemma started_reachable (shl_undef : Z -> Z -> Z) : reachable shl_undef started.
Proof. apply (reach_setup shl_undef (pins_high [modeDownSlow])). reflexivity. Qed.


Lemma timer_follows_mode_witness :
  (timers started = ∅ \/
   exists f : DirectionFunction,
     _directionFunction !! Z.to_nat (_rotation started) = Some f /\
     timers started = {[0 := (_speed started, f)]}) /\
  0 <= _rotation started < 3 /\
  In (_speed started) [slowSpeed; mediumSpeed; fastSpeed].
Proof.
  exact (timer_follows_mode zero_shift started (started_reachable zero_shift)).
Defined.


Lemma run_never_fails_witness :
  exists st' : State,
    handle zero_shift (ModeAlert modeRand 1 0) started = Some st' /\
    reachable zero_shift st'.
Proof.
  exact (run_never_fails zero_shift (ModeAlert modeRand 1 0) started
           (started_reachable zero_shift)).
Defined.

(** ** When the lamps change *)

Lemma updateTimerMode_effect (_pin _level _tick : Z) (st st' : State) :
  updateTimerMode _pin _level _tick st = Some st' ->
  outputs st' = outputs st /\
  Sequence_Stage st' = Sequence_Stage st /\
  flash_step st' = flash_step st /\
  BIAS_ON_MASK st' = BIAS_ON_MASK st /\
  BIAS_OFF_MASK st' = BIAS_OFF_MASK st /\
  exists cs : list GpioCall,
    calls st' = calls st ++ cs /\ Forall timer_call cs.
Proof.
  unfold updateTimerMode.
  set (s1 := select_mode _pin (gpioSetTimerFunc 0 10 None st)).
  assert (s1 = set_mode (_speed s1) (_rotation s1) (gpioSetTimerFunc 0 10 None st))
    as Hs1 by apply select_mode_frame.
  destruct (negb (_level =? 1)).
  - intros [= <-]. repeat (split; [reflexivity|]).
    eexists. split; [reflexivity|]. repeat constructor.
  - destruct (_rotation s1 <? 0); [discriminate|].
    destruct (_directionFunction !! Z.to_nat (_rotation s1)) as [f|];
      [|discriminate].
    intros [= <-]. cbn [gpioSetTimerFunc outputs Sequence_Stage flash_step
      BIAS_ON_MASK BIAS_OFF_MASK calls].
    rewrite Hs1. cbn [set_mode gpioSetTimerFunc outputs Sequence_Stage
      flash_step BIAS_ON_MASK BIAS_OFF_MASK calls].
    repeat (split; [reflexivity|]).
    eexists. split; [rewrite <- app_assoc; reflexivity|]. repeat constructor.
Qed.

(** X15: the lamps change on a timer expiry only.  An alert of a bias
    switch or of the mode dial writes no pin: the levels of all output
    pins, [Sequence_Stage] and [flash_step] are as before, and the calls
    it adds are timer calls.  So a bias switch shows on the lamps at the
    next expiry, not when it is thrown. *)
Theorem alerts_write_no_pin (shl_undef : Z -> Z -> Z) (e : Event)
    (st st' : State) :
  e <> TimerExpiry ->
  handle shl_undef e st = Some st' ->
  outputs st' = outputs st /\
  Sequence_Stage st' = Sequence_Stage st /\
  flash_step st' = flash_step st /\
  exists cs : list GpioCall,
    calls st' = calls st ++ cs /\
    forall c, In c cs -> exists timer millis f, c = CallSetTimerFunc timer millis f.
Proof.
  intros He Hrun.
  assert (forall cs, Forall timer_call cs ->
            forall c, In c cs ->
              exists timer millis f, c = CallSetTimerFunc timer millis f) as Hcs.
  { intros cs Hall c Hc. rewrite Forall_forall in Hall.
    apply list_elem_of_In in Hc.
    specialize (Hall c Hc). destruct c as [p l | t ms f]; [destruct Hall|].
    eexists _, _, _. reflexivity. }
  destruct e as [lv p l t | lv p l t | p l t |]; cbn [handle] in Hrun.
  - injection Hrun as <-. rewrite (updateOnBias_frame shl_undef lv p l t st).
    repeat (split; [reflexivity|]). exists []. split.
    + cbn [set_BIAS_ON_MASK calls]. symmetry. apply app_nil_r.
    + intros c [].
  - injection Hrun as <-. rewrite (updateOffBias_frame shl_undef lv p l t st).
    repeat (split; [reflexivity|]). exists []. split.
    + cbn [set_BIAS_OFF_MASK calls]. symmetry. apply app_nil_r.
    + intros c [].
  - destruct (updateTimerMode_effect p l t st st' Hrun)
      as (Ho & Hs & Hf & _ & _ & cs & Hc & Hall).
    repeat (split; [assumption|]). exists cs. split; [exact Hc|].
    apply Hcs, Hall.
  - contradiction.
Qed.

(** Red is forced on while the slow downward sequence runs: no lamp
    changes at the alert. *)
Lemma alerts_write_no_pin_witness :
  outputs (updateOnBias zero_shift (pins_high [redOnBias; amberOnBias; greenOnBias])
             redOnBias 1 0 (tick started))
  = outputs (tick started).
Proof.
  apply (alerts_write_no_pin zero_shift
           (OnBiasAlert (pins_high [redOnBias; amberOnBias; greenOnBias])
              redOnBias 1 0)
           (tick started)); [discriminate | reflexivity].
Defined.

(** ** The OFF mask *)

(** X16: the value [updateOffBias] stores on level 0 or 1 never comes
    from a defined shift.  Whatever the three OFF switches read, both
    shift counts are the complement of a read, that is [-1] or [-2], so
    the stored mask is what the target makes of two shifts by a negative
    count. *)
Theorem off_mask_is_undefined_shift (shl_undef : Z -> Z -> Z)
    (levels : Z -> bool) (_pin _level _tick : Z) (st : State) :
  _level = 0 \/ _level = 1 ->
  let r := Z.lnot (gpioRead levels redOffBias) in
  let a := Z.lnot (gpioRead levels amberOffBias) in
  let g := Z.lnot (gpioRead levels greenOffBias) in
  - 2 <= a < 0 /\ - 2 <= g < 0 /\
  BIAS_OFF_MASK (updateOffBias shl_undef levels _pin _level _tick st) =
  shl_undef (shl_undef r a) g.
Proof.
  intros Hl r a g. split; [|split].
  - unfold a, gpioRead, Z.lnot. destruct (levels amberOffBias); cbn [Z.b2z]; lia.
  - unfold g, gpioRead, Z.lnot. destruct (levels greenOffBias); cbn [Z.b2z]; lia.
  - apply updateOffBias_mask. exact Hl.
Qed.

(** On a target that makes 0 of such a shift, an OFF alert with no switch
    thrown stores 0, which forces every lamp off. *)
Lemma off_mask_is_undefined_shift_witness :
  BIAS_OFF_MASK (updateOffBias zero_shift all_low redOffBias 0 0 initial) = 0.
Proof.
  apply (off_mask_is_undefined_shift zero_shift all_low redOffBias 0 0 initial).
  left. reflexivity.
Defined.
